(** * Material-contract chaincode: the contract, the entity and its list

    A shallow embedding of
    - [contract/lib/materialContractContract.js] (the transactions [issue],
      [selectContract], [signContract] and [queryNamed]),
    - the [MaterialContract] entity class (state encoding, getters, setters,
      constructor, [createInstance], [toBuffer]),
    - the [ContractList] class (the three wrappers around the state list),
    followed by the properties of the specification that concern them.

    The two base classes of [ledger-api/] ([State], [StateList]) and
    [queries.js] are not part of the sources at hand; what the transactions
    need of them is taken from the specification and marked as such. *)

From Stdlib Require Import ZArith String Ascii List Bool Lia.
From stdpp Require Import gmap strings pretty.

Open Scope string_scope.
Open Scope Z_scope.

(** ** JavaScript values *)

(** The values that flow through the transactions: transaction arguments,
    entity properties, and the result of [parseInt].  Text is kept as its
    UTF-8 bytes.  Numbers are the integer-valued doubles, [NaN] and the two
    infinities; [JNum 0] stands for both zeros, which nothing here tells
    apart ([===], [JSON.stringify] and the conversion to text treat them
    alike). *)
Inductive jsval : Type :=
| JUndefined
| JNull
| JNaN
| JInfinity (negative : bool)
| JNum (n : Z)
| JStr (s : string).

(** [a === b].  [NaN] is not equal to itself. *)
Definition strict_eq (a b : jsval) : bool :=
  match a, b with
  | JUndefined, JUndefined => true
  | JNull, JNull => true
  | JInfinity a, JInfinity b => Bool.eqb a b
  | JNum m, JNum n => Z.eqb m n
  | JStr s, JStr t => String.eqb s t
  | _, _ => false
  end.

(** An object literal: its properties in insertion order. *)
Definition object : Type := list (string * jsval).

(** [obj.name]: the value of the property, [undefined] when there is none. *)
Fixpoint prop (obj : object) (name : string) : jsval :=
  match obj with
  | [] => JUndefined
  | (n, v) :: rest => if String.eqb n name then v else prop rest name
  end.

(** ** Numbers *)

(** The Number value for an integer: the nearest double, a tie going to the
    even significand of 53 bits, and an infinity from 2^1024 on. *)
Definition toNumber (z : Z) : jsval :=
  let a := Z.abs z in
  if a <? 2 ^ 53 then JNum z
  else
    let e := Z.log2 a - 52 in
    let q := Z.shiftr a e in
    let r := a - Z.shiftl q e in
    let half := 2 ^ (e - 1) in
    let q' := if (half <? r) || ((r =? half) && Z.odd q) then q + 1 else q in
    let m := Z.shiftl q' e in
    if 2 ^ 1024 <=? m then JInfinity (z <? 0) else JNum (Z.sgn z * m).

(** The first decimal digit of [n] and the power of ten that goes with it. *)
Fixpoint leading (fuel : nat) (n p : Z) : Z * Z :=
  match fuel with
  | O => (n, p)
  | S fuel' => if n <? 10 then (n, p) else leading fuel' (n / 10) (p * 10)
  end.

(** The first digit of the text of a double [a >= 10^21].  The text is the
    shortest numeral, in exponent form, that reads back as [a]: its
    first digit is that of [a], unless the next one-digit numeral reads back
    as [a] already (as 1e23 does for the double just under it). *)
Definition exponentLead (a : Z) : Z :=
  let '(d, p) := leading (S (Z.to_nat (Z.log2 a))) a 1 in
  match toNumber ((d + 1) * p) with
  | JNum m => if m =? a then (if d =? 9 then 1 else d + 1) else d
  | _ => d
  end.

(** ** [parseInt] (no radix argument) *)

Definition isWhiteSpace (c : ascii) : bool :=
  let n := nat_of_ascii c in
  (Nat.eqb n 9 || Nat.eqb n 10 || Nat.eqb n 11 || Nat.eqb n 12
   || Nat.eqb n 13 || Nat.eqb n 32)%bool.

(** The white space beyond ASCII, as UTF-8: U+00A0 in two bytes; U+1680,
    U+2000 to U+200A, U+2028, U+2029, U+202F, U+205F, U+3000 and U+FEFF in
    three. *)
Definition isWhiteSpace2 (c1 c2 : ascii) : bool :=
  (Nat.eqb (nat_of_ascii c1) 194 && Nat.eqb (nat_of_ascii c2) 160)%bool.

Definition isWhiteSpace3 (c1 c2 c3 : ascii) : bool :=
  let n1 := nat_of_ascii c1 in
  let n2 := nat_of_ascii c2 in
  let n3 := nat_of_ascii c3 in
  ((Nat.eqb n1 225 && Nat.eqb n2 154 && Nat.eqb n3 128)
   || (Nat.eqb n1 226 && Nat.eqb n2 128
       && ((Nat.leb 128 n3 && Nat.leb n3 138)
           || Nat.eqb n3 168 || Nat.eqb n3 169 || Nat.eqb n3 175))
   || (Nat.eqb n1 226 && Nat.eqb n2 129 && Nat.eqb n3 159)
   || (Nat.eqb n1 227 && Nat.eqb n2 128 && Nat.eqb n3 128)
   || (Nat.eqb n1 239 && Nat.eqb n2 187 && Nat.eqb n3 191))%bool.

Fixpoint trimStart (s : string) : string :=
  match s with
  | String c r =>
      if isWhiteSpace c then trimStart r
      else
        match r with
        | String c2 r2 =>
            if isWhiteSpace2 c c2 then trimStart r2
            else
              match r2 with
              | String c3 r3 => if isWhiteSpace3 c c2 c3 then trimStart r3 else s
              | EmptyString => s
              end
        | EmptyString => s
        end
  | EmptyString => s
  end.

(** The value of [c] as a digit of the given radix, if it is one. *)
Definition digitVal (radix : Z) (c : ascii) : option Z :=
  let n := Z.of_nat (nat_of_ascii c) in
  let d :=
    if (48 <=? n) && (n <=? 57) then Some (n - 48)
    else if (97 <=? n) && (n <=? 122) then Some (n - 87)
    else if (65 <=? n) && (n <=? 90) then Some (n - 55)
    else None in
  match d with
  | Some v => if v <? radix then Some v else None
  | None => None
  end.

(** The number written by the longest prefix of digits; [None] when the
    prefix is empty. *)
Fixpoint digits (radix : Z) (s : string) (acc : option Z) : option Z :=
  match s with
  | String c r =>
      match digitVal radix c with
      | Some d => digits radix r (Some (radix * default 0 acc + d))
      | None => acc
      end
  | EmptyString => acc
  end.

Definition parseIntString (s : string) : jsval :=
  let s := trimStart s in
  let '(sign, s) :=
    match s with
    | String "-" r => (-1, r)
    | String "+" r => (1, r)
    | _ => (1, s)
    end in
  let '(radix, s) :=
    match s with
    | String "0" (String "x" r) => (16, r)
    | String "0" (String "X" r) => (16, r)
    | _ => (10, s)
    end in
  match digits radix s None with
  | Some n => toNumber (sign * n)
  | None => JNaN
  end.

(** [parseInt(v)] converts [v] to text and reads an integer off its front.
    A number below 10^21 prints as its decimal numeral and reads back as
    itself; from 10^21 on it prints in exponent form, of which [parseInt]
    reads the first digit; ["undefined"], ["null"], ["NaN"] and
    ["Infinity"] start with no digit. *)
Definition parseInt (v : jsval) : jsval :=
  match v with
  | JStr s => parseIntString s
  | JNum n =>
      match toNumber n with
      | JNum m =>
          if Z.abs m <? 10 ^ 21 then JNum m
          else JNum (Z.sgn m * exponentLead (Z.abs m))
      | _ => JNaN
      end
  | JUndefined | JNull | JNaN | JInfinity _ => JNaN
  end.

(** ** The [MaterialContract] entity *)

Module cmState.
Definition ISSUED : Z := 1.
Definition TRADING : Z := 2.
Definition SIGNED : Z := 3.
End cmState.

(** The instance properties.  [class] and [key] are set by the base-class
    constructor, the next five are copied from the constructor's argument by
    [Object.assign], the last three are set by the setters. *)
Record MaterialContract : Type := mkMaterialContract {
  class : string;
  key : string;
  issuer : jsval;
  materialNumber : jsval;
  matetialType : jsval;
  arrivalTime : jsval;
  rewardValue : jsval;
  currentState : jsval;
  mspid : jsval;
  owner : jsval
}.

Definition getClass : string := "org.materialnet.materialcontract".

Definition getIssuer (this : MaterialContract) : jsval := issuer this.
Definition getOwner (this : MaterialContract) : jsval := owner this.
Definition getOwnerMSP (this : MaterialContract) : jsval := mspid this.
Definition getCurrentState (this : MaterialContract) : jsval := currentState this.

Definition setOwnerMSP (m : jsval) (this : MaterialContract) : MaterialContract :=
  {| class := class this; key := key this; issuer := issuer this;
     materialNumber := materialNumber this; matetialType := matetialType this;
     arrivalTime := arrivalTime this; rewardValue := rewardValue this;
     currentState := currentState this; mspid := m; owner := owner this |}.

Definition setOwner (newOwner : jsval) (this : MaterialContract) : MaterialContract :=
  {| class := class this; key := key this; issuer := issuer this;
     materialNumber := materialNumber this; matetialType := matetialType this;
     arrivalTime := arrivalTime this; rewardValue := rewardValue this;
     currentState := currentState this; mspid := mspid this; owner := newOwner |}.

Definition setCurrentState (s : jsval) (this : MaterialContract) : MaterialContract :=
  {| class := class this; key := key this; issuer := issuer this;
     materialNumber := materialNumber this; matetialType := matetialType this;
     arrivalTime := arrivalTime this; rewardValue := rewardValue this;
     currentState := s; mspid := mspid this; owner := owner this |}.

Definition setIssued : MaterialContract -> MaterialContract :=
  setCurrentState (JNum cmState.ISSUED).
Definition setTrading : MaterialContract -> MaterialContract :=
  setCurrentState (JNum cmState.TRADING).
Definition setSigned : MaterialContract -> MaterialContract :=
  setCurrentState (JNum cmState.SIGNED).

Definition isIssued (this : MaterialContract) : bool :=
  strict_eq (currentState this) (JNum cmState.ISSUED).
Definition isTrading (this : MaterialContract) : bool :=
  strict_eq (currentState this) (JNum cmState.TRADING).
Definition isSigned (this : MaterialContract) : bool :=
  strict_eq (currentState this) (JNum cmState.SIGNED).

(** [this[name]] for the property names of an instance. *)
Definition field (this : MaterialContract) (name : string) : jsval :=
  if String.eqb name "class" then JStr (class this)
  else if String.eqb name "key" then JStr (key this)
  else if String.eqb name "issuer" then issuer this
  else if String.eqb name "materialNumber" then materialNumber this
  else if String.eqb name "matetialType" then matetialType this
  else if String.eqb name "arrivalTime" then arrivalTime this
  else if String.eqb name "rewardValue" then rewardValue this
  else if String.eqb name "currentState" then currentState this
  else if String.eqb name "mspid" then mspid this
  else if String.eqb name "owner" then owner this
  else JUndefined.

Definition propertyNames : list string :=
  ["class"; "key"; "issuer"; "materialNumber"; "matetialType"; "arrivalTime";
   "rewardValue"; "currentState"; "mspid"; "owner"].

(** [JSON.stringify] of one property: an [undefined] property is left out,
    [NaN] and the infinities are written as [null]. *)
Definition stringifyProperty (name : string) (v : jsval) : object :=
  match v with
  | JUndefined => []
  | JNaN | JInfinity _ => [(name, JNull)]
  | _ => [(name, v)]
  end.

(** What [JSON.stringify] writes for the value of a property it keeps, which
    is what reading the text back gives. *)
Definition jsonValue (v : jsval) : jsval :=
  match v with
  | JNaN | JInfinity _ => JNull
  | _ => v
  end.

(** The entity as it reads back from its serialisation: every property
    through [JSON.stringify] and back. *)
Definition jsonRoundTrip (this : MaterialContract) : MaterialContract :=
  {| class := class this; key := key this;
     issuer := jsonValue (issuer this);
     materialNumber := jsonValue (materialNumber this);
     matetialType := jsonValue (matetialType this);
     arrivalTime := jsonValue (arrivalTime this);
     rewardValue := jsonValue (rewardValue this);
     currentState := jsonValue (currentState this);
     mspid := jsonValue (mspid this);
     owner := jsonValue (owner this) |}.

(** [toBuffer]: [Buffer.from(JSON.stringify(this))], kept as the JSON object
    the text denotes. *)
Definition toBuffer (this : MaterialContract) : object :=
  flat_map (fun name => stringifyProperty name (field this name)) propertyNames.

(** ** Failures *)

(** Every failure of a transaction is a thrown [Error]; the constructors
    name the throw sites after the failure kinds of the specification.
    [TypeError name] is the engine's own error for calling [obj.name] when
    [obj] has no such method. *)
Inductive error : Type :=
| TypeError (name : string)
| InvalidKeyAttribute
| DuplicateKey
| NotFound
| OwnershipMismatch
| InvalidState
| AlreadySigned
| Unauthorized
| UnknownNamedQuery.

Inductive result (A : Type) : Type :=
| Ok (a : A)
| Err (e : error).
Arguments Ok {A} a.
Arguments Err {A} e.

(** ** The ledger and the transaction monad *)

(** The world state seen through the contract list (the entries of its
    namespace, each as the entity it decodes to), and the writes issued so
    far, oldest first. *)
Record ledger : Type := mkLedger {
  world : gmap string MaterialContract;
  puts : list (string * MaterialContract)
}.

Definition putState (k : string) (v : MaterialContract) (l : ledger) : ledger :=
  {| world := <[k := v]> (world l); puts := puts l ++ [(k, v)] |}.

(** A transaction step reads and writes the ledger and returns or throws;
    the ledger it leaves records whatever was written before a throw. *)
Definition M (A : Type) : Type := ledger -> result A * ledger.

Definition throw {A : Type} (e : error) : M A := fun l => (Err e, l).

#[global] Instance M_ret : MRet M := fun A a l => (Ok a, l).
#[global] Instance M_bind : MBind M := fun A B f m l =>
  match m l with
  | (Ok a, l') => f a l'
  | (Err e, l') => (Err e, l')
  end.

(** Calling a method looked up by name on an object. *)
Definition invoke {A B : Type} (name : string) (method : option (A -> M B)) (a : A) : M B :=
  match method with
  | Some f => f a
  | None => throw (TypeError name)
  end.

(** The transaction context: the caller's identity. *)
Record Context : Type := mkContext {
  getMSPID : string
}.

(** ** Composite keys *)

(** The key layer ([State.makeKey] and the composite key of the state list)
    lives in [ledger-api/] and is a parameter of the model below.  Two
    builders are given here to run the model on concrete inputs: one that
    accepts whatever attributes it is given, and the one the specification
    describes, which does not. *)

Definition listName : string := "org.materialnet.materialcontractlist".

(** An attribute as the text that is joined into the key.  An absent
    attribute joins as the empty text. *)
Definition keyAttribute (v : jsval) : string :=
  match v with
  | JStr s => s
  | JNum n => pretty n
  | JNaN => "NaN"
  | JInfinity false => "Infinity"
  | JInfinity true => "-Infinity"
  | JUndefined | JNull => ""
  end.

(** A lenient builder, which is not the specification's: the namespace and
    the attributes, in order, joined with a delimiter, whatever the
    attributes are.  It never fails; it is there to run the transactions
    past the point where [strictKey] stops them. *)
Definition joinKey (parts : list jsval) : option string :=
  Some (String.concat ":" (listName :: map keyAttribute parts)).

Definition validAttribute (a : string) : bool :=
  negb (String.eqb a "")
  && negb (existsb (Ascii.eqb ":") (list_ascii_of_string a)).

(** Modelled from the spec: [CompositeKey.build]: the namespace and the
    attributes joined with a delimiter; it fails (InvalidKeyAttribute) if an
    attribute is empty or contains the delimiter. *)
Definition strictKey (parts : list jsval) : option string :=
  if forallb validAttribute (map keyAttribute parts) then joinKey parts else None.

(** ** Selectors of the query layer *)

Inductive condition : Type :=
| Equals (v : jsval)
| GreaterThan (n : Z).

(** [{ selector: { name: condition, ... } }] *)
Definition selector : Type := list (string * condition).

Definition satisfies (c : condition) (v : jsval) : bool :=
  match c, v with
  | Equals w, _ => strict_eq v w
  | GreaterThan n, JNum m => n <? m
  | GreaterThan _, JInfinity negative => negb negative
  | GreaterThan _, _ => false
  end.

(** An entity matches a selector when each named property satisfies its
    condition. *)
Definition selects (sel : selector) (e : MaterialContract) : bool :=
  forallb (fun nc => satisfies (snd nc) (field e (fst nc))) sel.

(** The transactions.  A failed invocation is dropped as a whole, a
    successful one commits the ledger it leaves. *)
Definition commit {A : Type} (tx : M A) (l : ledger) : ledger :=
  match tx l with
  | (Ok _, l') => l'
  | (Err _, _) => l
  end.

Definition emptyLedger : ledger := {| world := ∅; puts := [] |}.

Section Contract.

(** The key layer, a parameter of what follows: [State.makeKey] together
    with the composite key of the list's namespace.  [None] stands for the
    failure InvalidKeyAttribute of the specification's [CompositeKey.build]. *)
Variable makeKey : list jsval -> option string.

Definition makeKeyM (parts : list jsval) : M string :=
  match makeKey parts with
  | Some k => mret k
  | None => throw InvalidKeyAttribute
  end.

(** [new MaterialContract(obj)]: the base-class constructor receives the
    class name and the key parts [[obj.issuer, obj.number]], then
    [Object.assign(this, obj)] copies the properties of [obj].  (An [obj]
    built by [createInstance] has no [class] or [key] property to copy.) *)
Definition MaterialContract_new (obj : object) : M MaterialContract :=
  k ← makeKeyM [prop obj "issuer"; prop obj "number"];
  mret {| class := getClass; key := k;
          issuer := prop obj "issuer";
          materialNumber := prop obj "materialNumber";
          matetialType := prop obj "matetialType";
          arrivalTime := prop obj "arrivalTime";
          rewardValue := prop obj "rewardValue";
          currentState := prop obj "currentState";
          mspid := prop obj "mspid";
          owner := prop obj "owner" |}.

Definition createInstance (issuer materialNumber matetialType arrivalTime rewardValue : jsval)
  : M MaterialContract :=
  MaterialContract_new
    [("issuer", issuer); ("materialNumber", materialNumber);
     ("matetialType", matetialType); ("arrivalTime", arrivalTime);
     ("rewardValue", rewardValue)].

(** *** The state list *)

(** Modelled from the spec: [EntityStore.create], called [addState] by
    [ContractList]: the key is that of the entity; fails with DuplicateKey
    if an entry exists at that key, otherwise writes the encoded entity.
    The ledger keeps an entry as it reads back, so what is written for a
    new entity is its [jsonRoundTrip]. *)
Definition addState (state : MaterialContract) : M unit := fun l =>
  match world l !! key state with
  | Some _ => (Err DuplicateKey, l)
  | None => (Ok tt, putState (key state) (jsonRoundTrip state) l)
  end.

(** Modelled from the spec: [EntityStore.read], called [getState]: fails
    with NotFound if no entry exists at the key, otherwise returns the
    decoded entity, which is the entry as the ledger keeps it. *)
Definition getState (k : string) : M MaterialContract := fun l =>
  match world l !! k with
  | Some state => (Ok state, l)
  | None => (Err NotFound, l)
  end.

(** Modelled from the spec: [EntityStore.update], called [updateState]:
    the key is recomputed from the entity; fails with NotFound if no prior
    entry exists, otherwise overwrites.  The transactions pass it an entity
    read from the list and changed by setters given text, which encoding
    and decoding give back as it is ([transferred_jsonRoundTrip] below);
    the entry written is the entity. *)
Definition updateState (state : MaterialContract) : M unit := fun l =>
  match world l !! key state with
  | Some _ => (Ok tt, putState (key state) state l)
  | None => (Err NotFound, l)
  end.

(** *** [ContractList] *)

Definition addMaterialContract (materialContract : MaterialContract) : M unit :=
  addState materialContract.

Definition getMaterialContract (materialContractKey : string) : M MaterialContract :=
  getState materialContractKey.

Definition updateMaterialContract (materialContract : MaterialContract) : M unit :=
  updateState materialContract.

(** The methods of a [ContractList] instance: its own three and, modelled
    from the spec, the create, read and update of the state list it
    extends.  Any other name is [undefined] on the instance.  The lookup is
    split by what the method takes: a key, or an entity. *)
Definition ContractList_byKey (name : string) : option (string -> M MaterialContract) :=
  if String.eqb name "getMaterialContract" then Some getMaterialContract
  else if String.eqb name "getState" then Some getState
  else None.

Definition ContractList_byState (name : string) : option (MaterialContract -> M unit) :=
  if String.eqb name "addMaterialContract" then Some addMaterialContract
  else if String.eqb name "updateMaterialContract" then Some updateMaterialContract
  else if String.eqb name "addState" then Some addState
  else if String.eqb name "updateState" then Some updateState
  else None.

(** *** [MaterialContractContract] *)

Definition issue (ctx : Context) (issuer : string) (materialNumber : jsval)
    (matetialType arrivalTime : string) (rewardValue : jsval) : M object :=
  materialContract ← createInstance (JStr issuer) materialNumber
                       (JStr matetialType) (JStr arrivalTime) (parseInt rewardValue);
  let materialContract := setIssued materialContract in
  let mspid := getMSPID ctx in
  let materialContract := setOwnerMSP (JStr mspid) materialContract in
  let materialContract := setOwner (JStr issuer) materialContract in
  _ ← invoke "addMaterialContract"
        (ContractList_byState "addMaterialContract") materialContract;
  mret (toBuffer materialContract).

Definition selectContract (ctx : Context) (issuer : string) (materialNumber : jsval)
    (currentOwner newOwner : string) : M MaterialContract :=
  materialKey ← makeKeyM [JStr issuer; materialNumber];
  materialContract ← invoke "getMaterialContract"
                       (ContractList_byKey "getMaterialContract") materialKey;
  if negb (strict_eq (getOwner materialContract) (JStr currentOwner))
  then throw OwnershipMismatch
  else
    let materialContract :=
      if isIssued materialContract then setTrading materialContract
      else materialContract in
    if isTrading materialContract then
      let materialContract := setOwner (JStr newOwner) materialContract in
      let mspid := getMSPID ctx in
      let materialContract := setOwnerMSP (JStr mspid) materialContract in
      _ ← invoke "updateMaterialContract"
            (ContractList_byState "updateMaterialContract") materialContract;
      mret materialContract
    else throw InvalidState.

Definition signContract (ctx : Context) (issuer : string) (materialNumber : jsval)
    (signingOwner issuingOwnerMSP : string) : M MaterialContract :=
  materialKey ← makeKeyM [JStr issuer; materialNumber];
  materialContract ← invoke "getmaterial"
                       (ContractList_byKey "getmaterial") materialKey;
  if isSigned materialContract then throw AlreadySigned
  else if negb (strict_eq (getOwnerMSP materialContract) (JStr (getMSPID ctx)))
  then throw Unauthorized
  else if isTrading materialContract
          && strict_eq (getIssuer materialContract) (JStr signingOwner)
  then
    let materialContract := setOwner (getIssuer materialContract) materialContract in
    let materialContract := setOwnerMSP (JStr issuingOwnerMSP) materialContract in
    let materialContract := setSigned materialContract in
    _ ← invoke "updatematerial"
          (ContractList_byState "updatematerial") materialContract;
    mret materialContract
  else throw InvalidState.

(** The entity [issue] builds, given the key the constructor computed. *)
Definition issued (ctx : Context) (k : string) (issuer : string) (materialNumber : jsval)
    (matetialType arrivalTime : string) (rewardValue : jsval) : MaterialContract :=
  {| class := getClass; key := k;
     issuer := JStr issuer; materialNumber := materialNumber;
     matetialType := JStr matetialType; arrivalTime := JStr arrivalTime;
     rewardValue := parseInt rewardValue;
     currentState := JNum cmState.ISSUED;
     mspid := JStr (getMSPID ctx); owner := JStr issuer |}.

(** What a successful [selectContract] leaves of the entity it read. *)
Definition transferred (ctx : Context) (newOwner : string) (e : MaterialContract)
  : MaterialContract :=
  setOwnerMSP (JStr (getMSPID ctx))
    (setOwner (JStr newOwner) (if isIssued e then setTrading e else e)).

(** The [switch] of [queryNamed]. *)
Definition namedSelector (queryname : string) : result selector :=
  if String.eqb queryname "redeemed" then Ok [("currentState", Equals (JNum 4))]
  else if String.eqb queryname "trading" then Ok [("currentState", Equals (JNum 3))]
  else if String.eqb queryname "value" then Ok [("faceValue", GreaterThan 4000000)]
  else Err UnknownNamedQuery.

(** Modelled from the spec: [QueryLayer.bySelector] ([queryByAdhoc] of
    [queries.js]): the entries that match the selector. *)
Definition queryByAdhoc (querySelector : selector) : M (list (string * MaterialContract)) :=
  fun l => (Ok (List.filter (fun kv => selects querySelector (snd kv))
                            (map_to_list (world l))), l).

Definition queryNamed (ctx : Context) (queryname : string)
  : M (list (string * MaterialContract)) :=
  match namedSelector queryname with
  | Ok querySelector => queryByAdhoc querySelector
  | Err e => throw e
  end.

(** *** Sequences of invocations *)

Inductive call : Type :=
| SelectContract (ctx : Context) (issuer : string) (materialNumber : jsval)
    (currentOwner newOwner : string)
| SignContract (ctx : Context) (issuer : string) (materialNumber : jsval)
    (signingOwner issuingOwnerMSP : string).

Definition invokeCall (c : call) : M MaterialContract :=
  match c with
  | SelectContract ctx i n co no => selectContract ctx i n co no
  | SignContract ctx i n so msp => signContract ctx i n so msp
  end.

(** The key a call addresses. *)
Definition callKey (c : call) : option string :=
  match c with
  | SelectContract _ i n _ _ => makeKey [JStr i; n]
  | SignContract _ i n _ _ => makeKey [JStr i; n]
  end.

Definition runCalls (cs : list call) (l : ledger) : ledger :=
  fold_left (fun l c => commit (invokeCall c) l) cs l.

(** Every entry sits under the key its entity carries: what create and
    update establish. *)
Definition storedByKey (l : ledger) : Prop :=
  forall k e, world l !! k = Some e -> key e = k.

(** The lifecycle order on what [currentState] holds: a state stays, or
    moves forward along ISSUED, TRADING, SIGNED. *)
Definition stateLe (s s' : jsval) : Prop :=
  s' = s \/ exists a b, s = JNum a /\ s' = JNum b /\ cmState.ISSUED <= a < b /\ b <= cmState.SIGNED.

(** The ledgers that committed invocations of the three transactions
    produce from the empty one. *)
Inductive reachable : ledger -> Prop :=
| reachable_empty : reachable emptyLedger
| reachable_issue (l : ledger) (ctx : Context) (i : string) (n : jsval)
    (t a : string) (r : jsval) :
    reachable l -> reachable (commit (issue ctx i n t a r) l)
| reachable_call (l : ledger) (c : call) :
    reachable l -> reachable (commit (invokeCall c) l).

End Contract.

(** ** The scenarios of the specification *)

Module Scenario.

Definition magnetoCorp : Context := {| getMSPID := "MagnetoCorpMSP" |}.
Definition digiBank : Context := {| getMSPID := "DigiBankMSP" |}.

(** The key the transactions address for ("MagnetoCorp", 1001). *)
Definition contractKey : string :=
  "org.materialnet.materialcontractlist:MagnetoCorp:1001".

(** The contract of Scenario A, carrying the key it is addressed by. *)
Definition issuedContract : MaterialContract :=
  {| class := getClass; key := contractKey;
     issuer := JStr "MagnetoCorp"; materialNumber := JNum 1001;
     matetialType := JStr "Coal"; arrivalTime := JStr "2024-01-01";
     rewardValue := JNum 5000000; currentState := JNum cmState.ISSUED;
     mspid := JStr "MagnetoCorpMSP"; owner := JStr "MagnetoCorp" |}.

(** After Scenario B: bought by DigiBank. *)
Definition tradingContract : MaterialContract :=
  transferred digiBank "DigiBank" issuedContract.

(** After Scenario C: signed, back with its issuer. *)
Definition signedContract : MaterialContract :=
  setSigned (setOwnerMSP (JStr "MagnetoCorpMSP")
               (setOwner (getIssuer tradingContract) tradingContract)).

(** A ledger whose one entry is [e], under the key [e] carries. *)
Definition holding (e : MaterialContract) : ledger :=
  {| world := {[ key e := e ]}; puts := [] |}.

(** Scenario A as a transaction, with the key builder that accepts every
    attribute, and the ledger it leaves when run on the empty one. *)
Definition issueA (rewardValue : jsval) : M object :=
  issue joinKey magnetoCorp "MagnetoCorp" (JNum 1001) "Coal" "2024-01-01" rewardValue.

Definition afterIssue : ledger := commit (issueA (JNum 5000000)) emptyLedger.

(** The key built from the issuer and an absent second attribute. *)
Definition issuerKey : string := "org.materialnet.materialcontractlist:MagnetoCorp:".

(** A run of invocations on the contract: bought, signed, bought again. *)
Definition calls : list call :=
  [SelectContract digiBank "MagnetoCorp" (JNum 1001) "MagnetoCorp" "DigiBank";
   SignContract digiBank "MagnetoCorp" (JNum 1001) "MagnetoCorp" "MagnetoCorpMSP";
   SelectContract magnetoCorp "MagnetoCorp" (JNum 1001) "DigiBank" "Hedgematic"].

End Scenario.

(** ** Further parts of the entity and of its use *)





(** [typeof v === 'string'], [typeof v === 'number']. *)
Definition isString (v : jsval) : bool :=
  match v with JStr _ => true | _ => false end.

Definition isNumber (v : jsval) : bool :=
  match v with JNum _ | JNaN | JInfinity _ => true | _ => false end.

(** The properties no transaction touches once the entity is built. *)
Definition sameContract (e e' : MaterialContract) : Prop :=
  class e' = class e /\ key e' = key e /\ issuer e' = issuer e
  /\ materialNumber e' = materialNumber e /\ matetialType e' = matetialType e
  /\ arrivalTime e' = arrivalTime e /\ rewardValue e' = rewardValue e.

(** A ledger the transactions reach from Scenario A: the contract is issued,
    then bought by DigiBank.  The entry sits under the key of the issuer and
    an absent attribute, which is the key an [undefined] material number
    addresses. *)
Module Run.

Definition bought : M MaterialContract :=
  selectContract joinKey Scenario.digiBank "MagnetoCorp" JUndefined "MagnetoCorp" "DigiBank".

Definition afterBought : ledger := commit bought Scenario.afterIssue.

End Run.

(** A number that [JSON.stringify] writes as a numeral. *)
Definition isFinite (v : jsval) : bool :=
  match v with JNum _ => true | _ => false end.

(** The shape of an entry the transactions have written: the class tag, a key
    made of its issuer and an absent attribute, text for the owner, the
    owning organisation, the type and the arrival time, a finite number or
    [null] for the reward, a state that is ISSUED or TRADING, and every
    property such that the entry reads back from its serialisation as it
    is. *)
Definition wellIssued (makeKey : list jsval -> option string) (e : MaterialContract) : Prop :=
  class e = getClass
  /\ (exists i, issuer e = JStr i /\ makeKey [JStr i; JUndefined] = Some (key e))
  /\ isString (owner e) = true
  /\ isString (mspid e) = true
  /\ isString (matetialType e) = true
  /\ isString (arrivalTime e) = true
  /\ (isFinite (rewardValue e) = true \/ rewardValue e = JNull)
  /\ jsonRoundTrip e = e
  /\ (currentState e = JNum cmState.ISSUED \/ currentState e = JNum cmState.TRADING).

(** * Properties *)

(** ** Values *)

Lemma strict_eq_eq (a b : jsval) : strict_eq a b = true -> a = b.
Proof.
  destruct a, b; simpl; try discriminate; try reflexivity.
  - intros H. apply Bool.eqb_prop in H. now subst.
  - intros H. apply Z.eqb_eq in H. now subst.
  - intros H. apply String.eqb_eq in H. now subst.
Qed.

Lemma strict_eq_JStr (s : string) : strict_eq (JStr s) (JStr s) = true.
Proof. simpl. apply String.eqb_refl. Qed.

Lemma strict_eq_differs (a b : jsval) : a <> b -> strict_eq a b = false.
Proof.
  intros Hne. destruct (strict_eq a b) eqn:E; [|reflexivity].
  apply strict_eq_eq in E. contradiction.
Qed.

Example parseInt_numeral : parseInt (JStr "5000000") = JNum 5000000.
Proof. reflexivity. Qed.

Example parseInt_prefix : parseInt (JStr " 12px") = JNum 12.
Proof. reflexivity. Qed.

Example parseInt_hex : parseInt (JStr "0x1F") = JNum 31.
Proof. reflexivity. Qed.

Example parseInt_negative : parseInt (JStr "-5") = JNum (-5).
Proof. reflexivity. Qed.

Example parseInt_text : parseInt (JStr "abc") = JNaN.
Proof. reflexivity. Qed.

Example parseInt_empty : parseInt (JStr "") = JNaN.
Proof. reflexivity. Qed.

(** Above 2^53 the result is the nearest double, a tie going to the even
    one. *)
Example parseInt_rounds :
  parseInt (JStr "9007199254740993") = JNum 9007199254740992
  /\ parseInt (JStr "9007199254740995") = JNum 9007199254740996.
Proof. split; vm_compute; reflexivity. Qed.

(** A numeral beyond the range of a double reads as [Infinity], which
    [JSON.stringify] writes as [null]. *)
Example parseInt_overflows :
  parseInt (JStr (String.concat "" (repeat "9" 400))) = JInfinity false
  /\ jsonValue (JInfinity false) = JNull.
Proof. split; vm_compute; reflexivity. Qed.

(** A number from 10^21 on prints in exponent form: 1e21 and the double
    next to 1e23 both read as 1. *)
Example parseInt_exponent :
  parseInt (JNum (10 ^ 21)) = JNum 1
  /\ parseInt (JNum 99999999999999991611392) = JNum 1
  /\ parseInt (JNum (3 * 10 ^ 21)) = JNum 3.
Proof. repeat split; vm_compute; reflexivity. Qed.

(** A no-break space (U+00A0) before the numeral is skipped, a zero-width
    space (U+200B) is not. *)
Example parseInt_unicode_space :
  parseInt (JStr (String "194" (String "160" "42"))) = JNum 42
  /\ parseInt (JStr (String "226" (String "128" (String "139" "7")))) = JNaN.
Proof. split; vm_compute; reflexivity. Qed.

(** The three state tests read [currentState] against the encoding. *)
Lemma isIssued_iff (e : MaterialContract) :
  isIssued e = true <-> currentState e = JNum cmState.ISSUED.
Proof.
  unfold isIssued. split.
  - apply strict_eq_eq.
  - intros ->. reflexivity.
Qed.

Lemma isTrading_iff (e : MaterialContract) :
  isTrading e = true <-> currentState e = JNum cmState.TRADING.
Proof.
  unfold isTrading. split.
  - apply strict_eq_eq.
  - intros ->. reflexivity.
Qed.

Lemma isSigned_iff (e : MaterialContract) :
  isSigned e = true <-> currentState e = JNum cmState.SIGNED.
Proof.
  unfold isSigned. split.
  - apply strict_eq_eq.
  - intros ->. reflexivity.
Qed.

Lemma transferred_key (ctx : Context) (newOwner : string) (e : MaterialContract) :
  key (transferred ctx newOwner e) = key e.
Proof. unfold transferred. destruct (isIssued e); reflexivity. Qed.

Lemma transferred_state (ctx : Context) (newOwner : string) (e : MaterialContract) :
  currentState (transferred ctx newOwner e)
  = if isIssued e then JNum cmState.TRADING else currentState e.
Proof. unfold transferred. destruct (isIssued e); reflexivity. Qed.

(** ** Serialisation *)

Lemma prop_app (o1 o2 : object) (name : string) :
  prop (o1 ++ o2)%list name
  = if existsb (fun nv => String.eqb (fst nv) name) o1 then prop o1 name
    else prop o2 name.
Proof.
  induction o1 as [|[n v] o1 IH]; simpl; [reflexivity|].
  destruct (String.eqb n name); simpl; [reflexivity|exact IH].
Qed.

(** Reading a property off the properties [JSON.stringify] writes for a list
    of names. *)
Lemma prop_stringify (f : string -> jsval) (names : list string) (name : string) :
  prop (flat_map (fun n => stringifyProperty n (f n)) names) name
  = if existsb (String.eqb name) names then jsonValue (f name) else JUndefined.
Proof.
  induction names as [|n names IH]; simpl; [reflexivity|].
  rewrite prop_app, IH. rewrite (String.eqb_sym name n).
  destruct (String.eqb_spec n name) as [->|Hne]; simpl.
  - destruct (f name); simpl; rewrite ?String.eqb_refl; simpl; try reflexivity.
    now destruct (existsb (String.eqb name) names).
  - destruct (f n); simpl; try reflexivity.
    all: apply String.eqb_neq in Hne; now rewrite Hne.
Qed.

Lemma field_unnamed (e : MaterialContract) (name : string) :
  existsb (String.eqb name) propertyNames = false -> field e name = JUndefined.
Proof.
  unfold propertyNames, field. simpl.
  repeat (destruct (String.eqb name _); simpl; [discriminate|]).
  reflexivity.
Qed.

Lemma toBuffer_prop (e : MaterialContract) (name : string) :
  prop (toBuffer e) name = jsonValue (field e name).
Proof.
  unfold toBuffer. rewrite prop_stringify.
  destruct (existsb (String.eqb name) propertyNames) eqn:E; [reflexivity|].
  now rewrite field_unnamed.
Qed.

Lemma toBuffer_In (e : MaterialContract) (name : string) (v : jsval) :
  In (name, v) (toBuffer e) ->
  In name propertyNames /\ v = jsonValue (field e name) /\ field e name <> JUndefined.
Proof.
  intros Hin. unfold toBuffer in Hin.
  apply in_flat_map in Hin. destruct Hin as (n & Hn & Hin).
  destruct (field e n) eqn:E; simpl in Hin; try contradiction.
  all: destruct Hin as [Heq|[]]; inversion Heq; subst.
  all: rewrite E; repeat split; try assumption; discriminate.
Qed.

Lemma jsonValue_idempotent (v : jsval) : jsonValue (jsonValue v) = jsonValue v.
Proof. now destruct v. Qed.

Lemma jsonRoundTrip_idempotent (e : MaterialContract) :
  jsonRoundTrip (jsonRoundTrip e) = jsonRoundTrip e.
Proof. unfold jsonRoundTrip. simpl. now rewrite !jsonValue_idempotent. Qed.

(** An entity that reads back as it is still does after a transfer: the
    setters of [selectContract] put in text and the TRADING encoding. *)
Lemma transferred_jsonRoundTrip (ctx : Context) (no : string) (e : MaterialContract) :
  jsonRoundTrip e = e -> jsonRoundTrip (transferred ctx no e) = transferred ctx no e.
Proof.
  intros H.
  pose proof (f_equal issuer H) as Hi. pose proof (f_equal materialNumber H) as Hn.
  pose proof (f_equal matetialType H) as Ht. pose proof (f_equal arrivalTime H) as Ha.
  pose proof (f_equal rewardValue H) as Hr. pose proof (f_equal currentState H) as Hs.
  simpl in Hi, Hn, Ht, Ha, Hr, Hs.
  unfold transferred, jsonRoundTrip.
  destruct (isIssued e); simpl; rewrite Hi, Hn, Ht, Ha, Hr, ?Hs; reflexivity.
Qed.

(** ** [parseInt] *)

Lemma toNumber_isNumber (z : Z) : isNumber (toNumber z) = true.
Proof.
  unfold toNumber. destruct (Z.abs z <? 2 ^ 53); [reflexivity|].
  match goal with |- context [if ?c then JInfinity _ else _] => destruct c end;
    reflexivity.
Qed.

Lemma parseInt_isNumber (v : jsval) : isNumber (parseInt v) = true.
Proof.
  destruct v; try reflexivity; simpl.
  - pose proof (toNumber_isNumber n) as H.
    destruct (toNumber n); try reflexivity; try discriminate.
    now destruct (Z.abs n0 <? 10 ^ 21).
  - unfold parseIntString.
    repeat match goal with
           | |- context [let '(_, _) := ?p in _] => destruct p
           end.
    destruct (digits _ _ _); [apply toNumber_isNumber|reflexivity].
Qed.

(** What [parseInt] gives is written by [JSON.stringify] as a numeral or as
    [null]. *)
Lemma jsonValue_parseInt (v : jsval) :
  isFinite (jsonValue (parseInt v)) = true \/ jsonValue (parseInt v) = JNull.
Proof.
  pose proof (parseInt_isNumber v) as H.
  destruct (parseInt v); try discriminate; simpl; auto.
Qed.

(** ** The ledger *)

Lemma putState_lookup (k : string) (v : MaterialContract) (l : ledger) :
  world (putState k v l) !! k = Some v.
Proof. simpl. apply lookup_insert_eq. Qed.

Lemma putState_lookup_ne (k k' : string) (v : MaterialContract) (l : ledger) :
  k <> k' -> world (putState k v l) !! k' = world l !! k'.
Proof. intros Hne. simpl. now apply lookup_insert_ne. Qed.

Lemma storedByKey_empty : storedByKey emptyLedger.
Proof. intros k e H. simpl in H. rewrite lookup_empty in H. discriminate. Qed.

Lemma storedByKey_putState (e : MaterialContract) (l : ledger) :
  storedByKey l -> storedByKey (putState (key e) e l).
Proof.
  intros Hl k e' H. destruct (decide (key e = k)) as [<-|Hne].
  - rewrite putState_lookup in H. now inversion H.
  - rewrite putState_lookup_ne in H by assumption. now apply Hl.
Qed.

Lemma storedByKey_holding (e : MaterialContract) : storedByKey (Scenario.holding e).
Proof.
  intros k e' H. simpl in H.
  apply lookup_singleton_Some in H. destruct H as [Hk <-]. exact Hk.
Qed.

Section ContractFacts.

Variable makeKey : list jsval -> option string.

(** *** The state list *)

Lemma addState_taken (state : MaterialContract) (l : ledger) :
  is_Some (world l !! key state) -> addState state l = (Err DuplicateKey, l).
Proof. intros [v Hv]. unfold addState. now rewrite Hv. Qed.

Lemma addState_free (state : MaterialContract) (l : ledger) :
  world l !! key state = None ->
  addState state l = (Ok tt, putState (key state) (jsonRoundTrip state) l).
Proof. intros Hv. unfold addState. now rewrite Hv. Qed.

Lemma updateState_present (state : MaterialContract) (l : ledger) :
  is_Some (world l !! key state) ->
  updateState state l = (Ok tt, putState (key state) state l).
Proof. intros [v Hv]. unfold updateState. now rewrite Hv. Qed.

(** *** [issue] *)

(** The three ways an [issue] ends.  The key comes from the issuer and the
    property [number], which [createInstance] never sets. *)
Lemma issue_cases (ctx : Context) (i : string) (n : jsval) (t a : string)
    (r : jsval) (l : ledger) :
  match makeKey [JStr i; JUndefined] with
  | None => issue makeKey ctx i n t a r l = (Err InvalidKeyAttribute, l)
  | Some k =>
      match world l !! k with
      | Some _ => issue makeKey ctx i n t a r l = (Err DuplicateKey, l)
      | None =>
          issue makeKey ctx i n t a r l
          = (Ok (toBuffer (issued ctx k i n t a r)),
             putState k (jsonRoundTrip (issued ctx k i n t a r)) l)
      end
  end.
Proof.
  unfold issue, createInstance, MaterialContract_new, makeKeyM.
  unfold mbind, M_bind, mret, M_ret, throw. simpl.
  destruct (makeKey [JStr i; JUndefined]) as [k|]; [|reflexivity].
  unfold addMaterialContract, addState. simpl.
  destruct (world l !! k); reflexivity.
Qed.

(** A committed [issue] keeps every entry under the key it carries. *)
Lemma commit_issue_storedByKey (ctx : Context) (i : string) (n : jsval) (t a : string)
    (r : jsval) (l : ledger) :
  storedByKey l -> storedByKey (commit (issue makeKey ctx i n t a r) l).
Proof.
  intros Hl. unfold commit.
  pose proof (issue_cases ctx i n t a r l) as Hc.
  destruct (makeKey [JStr i; JUndefined]) as [k|]; [|now rewrite Hc].
  destruct (world l !! k); rewrite Hc; [assumption|].
  now apply (storedByKey_putState (jsonRoundTrip (issued ctx k i n t a r))).
Qed.

End ContractFacts.

Section TransactionFacts.

Variable makeKey : list jsval -> option string.

(** *** [selectContract] *)

(** A [selectContract] that returns has read an entity at the key it
    addresses, found the owner as given and the state ISSUED or TRADING, and
    has written the transferred entity under the key that entity carries.
    One that throws has written nothing. *)
Lemma selectContract_cases (ctx : Context) (i : string) (n : jsval)
    (co no : string) (l : ledger) :
  match selectContract makeKey ctx i n co no l with
  | (Ok e', l') =>
      exists k e,
        makeKey [JStr i; n] = Some k /\ world l !! k = Some e
        /\ owner e = JStr co
        /\ (isIssued e = true \/ isTrading e = true)
        /\ is_Some (world l !! key e)
        /\ e' = transferred ctx no e
        /\ l' = putState (key e) e' l
  | (Err _, l') => l' = l
  end.
Proof.
  unfold selectContract, makeKeyM.
  unfold mbind, M_bind, mret, M_ret, throw. simpl.
  destruct (makeKey [JStr i; n]) as [k|] eqn:Hk; [|reflexivity].
  unfold getMaterialContract, getState.
  destruct (world l !! k) as [e|] eqn:He; [|reflexivity].
  unfold getOwner.
  destruct (strict_eq (owner e) (JStr co)) eqn:Hown; simpl; [|reflexivity].
  apply strict_eq_eq in Hown.
  destruct (isIssued e) eqn:Hi; simpl.
  - unfold updateMaterialContract, updateState. simpl.
    destruct (world l !! key e) eqn:Hu; [|reflexivity].
    exists k, e. unfold transferred. rewrite Hi. eauto 10.
  - destruct (isTrading e) eqn:Ht; [|reflexivity].
    unfold updateMaterialContract, updateState. simpl.
    destruct (world l !! key e) eqn:Hu; [|reflexivity].
    exists k, e. unfold transferred. rewrite Hi. eauto 10.
Qed.

(** The owner test comes first. *)
Lemma selectContract_not_owner (ctx : Context) (i : string) (n : jsval)
    (co no : string) (l : ledger) (k : string) (e : MaterialContract) :
  makeKey [JStr i; n] = Some k -> world l !! k = Some e ->
  owner e <> JStr co ->
  selectContract makeKey ctx i n co no l = (Err OwnershipMismatch, l).
Proof.
  intros Hk He Hown.
  unfold selectContract, makeKeyM.
  unfold mbind, M_bind, mret, M_ret, throw. simpl.
  rewrite Hk. unfold getMaterialContract, getState. rewrite He.
  unfold getOwner. now rewrite (strict_eq_differs _ _ Hown).
Qed.

Lemma selectContract_owner (ctx : Context) (i : string) (n : jsval)
    (co no : string) (l : ledger) (k : string) (e : MaterialContract) :
  makeKey [JStr i; n] = Some k -> world l !! k = Some e ->
  owner e = JStr co ->
  selectContract makeKey ctx i n co no l
  = if isIssued e || isTrading e
    then match updateState (transferred ctx no e) l with
         | (Ok _, l') => (Ok (transferred ctx no e), l')
         | (Err err, l') => (Err err, l')
         end
    else (Err InvalidState, l).
Proof.
  intros Hk He Hown.
  unfold selectContract, makeKeyM.
  unfold mbind, M_bind, mret, M_ret, throw. simpl.
  rewrite Hk. unfold getMaterialContract, getState. rewrite He.
  unfold getOwner. rewrite Hown, strict_eq_JStr. simpl.
  unfold transferred, updateMaterialContract.
  destruct (isIssued e) eqn:Hi; simpl; [reflexivity|].
  destruct (isTrading e) eqn:Ht; reflexivity.
Qed.

(** *** [signContract] *)

(** [signContract] asks the list for [getmaterial], which the list does
    not have: the call throws before the entity is read. *)
Lemma signContract_throws (ctx : Context) (i : string) (n : jsval)
    (so msp : string) (l : ledger) :
  signContract makeKey ctx i n so msp l
  = (Err (match makeKey [JStr i; n] with
          | Some _ => TypeError "getmaterial"
          | None => InvalidKeyAttribute
          end), l).
Proof.
  unfold signContract, makeKeyM.
  unfold mbind, M_bind, mret, M_ret, throw. simpl.
  destruct (makeKey [JStr i; n]); reflexivity.
Qed.

(** *** One committed invocation *)

Lemma commit_signContract (ctx : Context) (i : string) (n : jsval)
    (so msp : string) (l : ledger) :
  commit (signContract makeKey ctx i n so msp) l = l.
Proof. unfold commit. now rewrite signContract_throws. Qed.

(** A committed [selectContract] keeps every entry in place, keyed as it
    was; its state stays or goes from ISSUED to TRADING; a SIGNED entry is
    untouched. *)
Lemma commit_selectContract (ctx : Context) (i : string) (n : jsval)
    (co no : string) (l : ledger) :
  storedByKey l ->
  storedByKey (commit (selectContract makeKey ctx i n co no) l)
  /\ forall k e, world l !! k = Some e ->
       exists e', world (commit (selectContract makeKey ctx i n co no) l) !! k = Some e'
         /\ (e' = e
             \/ (makeKey [JStr i; n] = Some k
                 /\ currentState e' = JNum cmState.TRADING
                 /\ (currentState e = JNum cmState.ISSUED
                     \/ currentState e = JNum cmState.TRADING))).
Proof.
  intros Hl. unfold commit.
  pose proof (selectContract_cases ctx i n co no l) as H.
  destruct (selectContract makeKey ctx i n co no l) as [[e'|err] l'].
  - destruct H as (k0 & e0 & Hk & He & Hown & Hst & Hup & -> & ->).
    assert (key e0 = k0) as Hkey by now apply Hl.
    split.
    + rewrite <- (transferred_key ctx no e0). now apply storedByKey_putState.
    + intros k e Hke. destruct (decide (k0 = k)) as [<-|Hne].
      * rewrite Hkey, putState_lookup. eexists; split; [reflexivity|].
        right. rewrite He in Hke. inversion Hke; subst e.
        split; [assumption|]. rewrite transferred_state.
        destruct Hst as [Hi|Ht].
        -- rewrite Hi. split; [reflexivity|]. left. now apply isIssued_iff.
        -- apply isTrading_iff in Ht.
           destruct (isIssued e0); (split; [reflexivity || assumption|]); now right.
      * rewrite Hkey, putState_lookup_ne by assumption. eauto.
  - split; [assumption|]. intros k e Hke. eauto.
Qed.

Lemma commit_invokeCall (c : call) (l : ledger) :
  storedByKey l ->
  storedByKey (commit (invokeCall makeKey c) l)
  /\ forall k e, world l !! k = Some e ->
       exists e', world (commit (invokeCall makeKey c) l) !! k = Some e'
         /\ (e' = e
             \/ (callKey makeKey c = Some k
                 /\ currentState e' = JNum cmState.TRADING
                 /\ (currentState e = JNum cmState.ISSUED
                     \/ currentState e = JNum cmState.TRADING))).
Proof.
  intros Hl. destruct c as [ctx i n co no|ctx i n so msp]; simpl.
  - now apply commit_selectContract.
  - rewrite commit_signContract. split; [assumption|]. eauto.
Qed.

(** *** Sequences of committed invocations *)

Lemma runCalls_cons (c : call) (cs : list call) (l : ledger) :
  runCalls makeKey (c :: cs) l = runCalls makeKey cs (commit (invokeCall makeKey c) l).
Proof. reflexivity. Qed.

Lemma runCalls_entries (cs : list call) :
  forall l, storedByKey l ->
    storedByKey (runCalls makeKey cs l)
    /\ forall k e, world l !! k = Some e ->
         exists e', world (runCalls makeKey cs l) !! k = Some e'
           /\ (e' = e
               \/ (currentState e' = JNum cmState.TRADING
                   /\ (currentState e = JNum cmState.ISSUED
                       \/ currentState e = JNum cmState.TRADING))).
Proof.
  induction cs as [|c cs IH]; intros l Hl.
  - split; [assumption|]. intros k e He. exists e. auto.
  - rewrite runCalls_cons.
    destruct (commit_invokeCall c l Hl) as [Hl1 Hstep].
    destruct (IH _ Hl1) as [Hl2 Hrest].
    split; [assumption|]. intros k e He.
    destruct (Hstep k e He) as (e1 & He1 & Hrel1).
    destruct (Hrest k e1 He1) as (e2 & He2 & Hrel2).
    exists e2. split; [assumption|].
    destruct Hrel2 as [->|[Ht2 Hfrom2]].
    + destruct Hrel1 as [->|(_ & Ht1 & Hfrom1)]; auto.
    + right. split; [assumption|].
      destruct Hrel1 as [->|(_ & Ht1 & Hfrom1)]; assumption.
Qed.

(** A call that addresses a SIGNED entry throws and writes nothing. *)
Lemma invokeCall_signed (c : call) (l : ledger) (k : string) (e : MaterialContract) :
  callKey makeKey c = Some k -> world l !! k = Some e ->
  currentState e = JNum cmState.SIGNED ->
  exists err, invokeCall makeKey c l = (Err err, l).
Proof.
  intros Hk He Hs. destruct c as [ctx i n co no|ctx i n so msp]; simpl in *.
  - pose proof (selectContract_cases ctx i n co no l) as H.
    destruct (selectContract makeKey ctx i n co no l) as [[e'|err] l'].
    + destruct H as (k0 & e0 & Hk0 & He0 & _ & Hst & _).
      rewrite Hk in Hk0. inversion Hk0; subst k0.
      rewrite He in He0. inversion He0; subst e0.
      destruct Hst as [Hi|Ht].
      * apply isIssued_iff in Hi. rewrite Hs in Hi. discriminate.
      * apply isTrading_iff in Ht. rewrite Hs in Ht. discriminate.
    + subst l'. eauto.
  - rewrite signContract_throws. eauto.
Qed.

(** Every reachable ledger keeps its entries under the keys they carry. *)
Lemma reachable_storedByKey (l : ledger) : reachable makeKey l -> storedByKey l.
Proof.
  induction 1 as [|l ctx i n t a r _ IH|l c _ IH].
  - apply storedByKey_empty.
  - now apply commit_issue_storedByKey.
  - now apply commit_invokeCall.
Qed.

End TransactionFacts.

(** * The properties of the specification *)

Section Specification.

Variable makeKey : list jsval -> option string.

(** C4. When the entity stored at the key a [selectContract] addresses has
    an owner other than [currentOwner], the call throws the ownership
    error, the ledger is left exactly as it was (same entries, no write
    issued), and the entity is still the one stored. *)
Theorem selectContract_ownership_enforced (ctx : Context) (i : string) (n : jsval)
    (co no : string) (l : ledger) (k : string) (e : MaterialContract) :
  makeKey [JStr i; n] = Some k ->
  world l !! k = Some e ->
  owner e <> JStr co ->
  selectContract makeKey ctx i n co no l = (Err OwnershipMismatch, l)
  /\ puts (snd (selectContract makeKey ctx i n co no l)) = puts l
  /\ world (snd (selectContract makeKey ctx i n co no l)) !! k = Some e
  /\ commit (selectContract makeKey ctx i n co no) l = l.
Proof.
  intros Hk He Hown.
  pose proof (selectContract_not_owner makeKey ctx i n co no l k e Hk He Hown) as H.
  unfold commit. rewrite H. simpl. auto.
Qed.

(** C5. When the entity stored (under its own key) at the key a
    [selectContract] addresses has [currentOwner] as owner: from ISSUED or
    TRADING the call returns, within the one call the state is TRADING, the
    owner is [newOwner], the owning organisation is the caller's, nothing
    else changes, and the entity is written by the list's update; from
    SIGNED the call throws the invalid-state error and writes nothing. *)
Theorem selectContract_transfers (ctx : Context) (i : string) (n : jsval)
    (co no : string) (l : ledger) (k : string) (e : MaterialContract) :
  makeKey [JStr i; n] = Some k ->
  world l !! k = Some e ->
  key e = k ->
  owner e = JStr co ->
  (currentState e = JNum cmState.ISSUED \/ currentState e = JNum cmState.TRADING ->
     let e' := setOwnerMSP (JStr (getMSPID ctx))
                 (setOwner (JStr no) (setTrading e)) in
     selectContract makeKey ctx i n co no l = (Ok e', putState k e' l)
     /\ updateMaterialContract e' l = (Ok tt, putState k e' l)
     /\ world (putState k e' l) !! k = Some e'
     /\ owner e' = JStr no
     /\ mspid e' = JStr (getMSPID ctx)
     /\ currentState e' = JNum cmState.TRADING)
  /\ (currentState e = JNum cmState.SIGNED ->
        selectContract makeKey ctx i n co no l = (Err InvalidState, l)).
Proof.
  intros Hk He Hkey Hown.
  pose proof (selectContract_owner makeKey ctx i n co no l k e Hk He Hown) as H.
  split.
  - intros Hst e'.
    assert (transferred ctx no e = e') as Htr.
    { unfold transferred, e'. destruct (isIssued e) eqn:Hi; [reflexivity|].
      destruct Hst as [Hs|Hs].
      - apply isIssued_iff in Hs. congruence.
      - unfold setTrading, setCurrentState. rewrite <- Hs. now destruct e. }
    assert (isIssued e || isTrading e = true) as Hb.
    { destruct Hst as [Hs|Hs].
      - apply isIssued_iff in Hs. now rewrite Hs.
      - apply isTrading_iff in Hs. rewrite Hs. apply orb_true_r. }
    assert (updateState e' l = (Ok tt, putState k e' l)) as Hup.
    { rewrite <- Hkey. change (key e) with (key e').
      apply updateState_present. change (key e') with (key e).
      rewrite Hkey, He. eauto. }
    rewrite Hb, Htr, Hup in H.
    repeat split; try assumption. apply putState_lookup.
  - intros Hs. rewrite H.
    unfold isIssued, isTrading. now rewrite Hs.
Qed.

(** C6. An [issue] that returns has built an entity in state ISSUED, owned
    by the issuer, with the caller's organisation as owning organisation
    and the arguments as its other properties; it has added that entity
    through the list's create, under a key that was free, where the entry
    now reads as the entity does from its serialisation; and what it returns
    is the serialisation of that entity: every property of the entity is
    read off it under its name, and nothing else is in it. *)
Theorem issue_creates_issued (ctx : Context) (i : string) (n : jsval)
    (t a : string) (r : jsval) (l l' : ledger) (buf : object) :
  issue makeKey ctx i n t a r l = (Ok buf, l') ->
  exists mc,
    currentState mc = JNum cmState.ISSUED
    /\ owner mc = JStr i
    /\ mspid mc = JStr (getMSPID ctx)
    /\ issuer mc = JStr i
    /\ materialNumber mc = n
    /\ matetialType mc = JStr t
    /\ arrivalTime mc = JStr a
    /\ rewardValue mc = parseInt r
    /\ class mc = getClass
    /\ addMaterialContract mc l = (Ok tt, l')
    /\ world l !! key mc = None
    /\ world l' !! key mc = Some (jsonRoundTrip mc)
    /\ buf = toBuffer mc
    /\ (forall name, prop buf name = jsonValue (field mc name))
    /\ (forall name v, In (name, v) buf ->
          In name propertyNames /\ v = jsonValue (field mc name))
    /\ prop buf "class" = JStr getClass
    /\ prop buf "key" = JStr (key mc)
    /\ prop buf "issuer" = JStr i
    /\ prop buf "materialNumber" = jsonValue n
    /\ prop buf "matetialType" = JStr t
    /\ prop buf "arrivalTime" = JStr a
    /\ prop buf "rewardValue" = jsonValue (parseInt r)
    /\ prop buf "currentState" = JNum cmState.ISSUED
    /\ prop buf "mspid" = JStr (getMSPID ctx)
    /\ prop buf "owner" = JStr i.
Proof.
  intros H. pose proof (issue_cases makeKey ctx i n t a r l) as Hc.
  destruct (makeKey [JStr i; JUndefined]) as [k|]; [|congruence].
  destruct (world l !! k) eqn:Hfree; [congruence|].
  rewrite Hc in H. inversion H; subst buf l'. clear H.
  exists (issued ctx k i n t a r).
  repeat (split; [reflexivity|]).
  split; [unfold addMaterialContract; now apply addState_free|].
  split; [exact Hfree|].
  split; [apply putState_lookup|].
  split; [reflexivity|].
  split; [apply toBuffer_prop|].
  split; [intros name v Hin; apply toBuffer_In in Hin; tauto|].
  rewrite !toBuffer_prop. repeat split.
Qed.

(** C9. After an [issue] for an (issuer, materialNumber) pair has returned,
    another [issue] for the same pair, whoever calls it and whatever the
    other arguments, throws the duplicate-key error and leaves the ledger
    as it was; create never overwrites an existing entry. *)
Theorem issue_twice_duplicate (ctx ctx' : Context) (i : string) (n : jsval)
    (t a t' a' : string) (r r' : jsval) (l l1 : ledger) (buf : object) :
  issue makeKey ctx i n t a r l = (Ok buf, l1) ->
  issue makeKey ctx' i n t' a' r' l1 = (Err DuplicateKey, l1)
  /\ (forall state l0, is_Some (world l0 !! key state) ->
        addState state l0 = (Err DuplicateKey, l0)).
Proof.
  intros H. split; [|apply addState_taken].
  pose proof (issue_cases makeKey ctx i n t a r l) as Hc.
  pose proof (issue_cases makeKey ctx' i n t' a' r' l1) as Hc'.
  destruct (makeKey [JStr i; JUndefined]) as [k|]; [|congruence].
  destruct (world l !! k) eqn:Hfree; [congruence|].
  rewrite Hc in H. inversion H; subst buf l1. clear H.
  now rewrite putState_lookup in Hc'.
Qed.

(** C8, as the code has it.  [issue] does not check [rewardValue]: two
    calls that differ in the reward only both return or both throw, with the
    same error and nothing written.  When they return, each has created its
    entity, and the serialisations returned agree on every property but the
    reward, which is what [parseInt] makes of the argument, written as
    [null] when that is [NaN] or infinite. *)
Theorem issue_reward_unchecked (ctx : Context) (i : string) (n : jsval)
    (t a : string) (r r' : jsval) (l : ledger) :
  match issue makeKey ctx i n t a r l, issue makeKey ctx i n t a r' l with
  | (Ok buf, l1), (Ok buf', l2) =>
      prop buf "rewardValue" = jsonValue (parseInt r)
      /\ prop buf' "rewardValue" = jsonValue (parseInt r')
      /\ (forall name, name <> "rewardValue" -> prop buf name = prop buf' name)
      /\ size (world l1) = S (size (world l))
      /\ size (world l2) = S (size (world l))
  | (Err e, l1), (Err e', l2) => e = e' /\ l1 = l /\ l2 = l
  | _, _ => False
  end.
Proof.
  pose proof (issue_cases makeKey ctx i n t a r l) as Hc.
  pose proof (issue_cases makeKey ctx i n t a r' l) as Hc'.
  destruct (makeKey [JStr i; JUndefined]) as [k|]; [|now rewrite Hc, Hc'].
  destruct (world l !! k) eqn:Hfree; rewrite Hc, Hc'; [auto|].
  rewrite !toBuffer_prop.
  split; [reflexivity|]. split; [reflexivity|]. split.
  - intros name Hne. rewrite !toBuffer_prop. unfold field. simpl.
    apply String.eqb_neq in Hne. now rewrite Hne.
  - simpl. now rewrite !map_size_insert_None.
Qed.

(** C3. On a ledger whose entries sit under their own keys, whatever
    sequence of [selectContract] and [signContract] invocations is run:
    an entry stays in place and its state never moves backwards; a SIGNED
    entry stays as it is, and every call addressing it, at any point of the
    sequence, throws and writes nothing; and an entry found TRADING after
    an invocation was ISSUED or TRADING before it. *)
Theorem lifecycle_never_regresses (cs : list call) (l : ledger) (k : string)
    (e : MaterialContract) :
  storedByKey l ->
  world l !! k = Some e ->
  (exists e', world (runCalls makeKey cs l) !! k = Some e'
              /\ stateLe (currentState e) (currentState e'))
  /\ (currentState e = JNum cmState.SIGNED ->
        world (runCalls makeKey cs l) !! k = Some e
        /\ forall c, callKey makeKey c = Some k ->
             exists err, invokeCall makeKey c (runCalls makeKey cs l)
                         = (Err err, runCalls makeKey cs l))
  /\ (forall c e', world (commit (invokeCall makeKey c) l) !! k = Some e' ->
        currentState e' = JNum cmState.TRADING ->
        currentState e = JNum cmState.ISSUED
        \/ currentState e = JNum cmState.TRADING).
Proof.
  intros Hl He.
  destruct (runCalls_entries makeKey cs l Hl) as [Hl' Hrun].
  destruct (Hrun k e He) as (e' & He' & Hrel).
  split; [|split].
  - exists e'. split; [assumption|].
    destruct Hrel as [->|[Ht Hfrom]]; [now left|].
    rewrite Ht. destruct Hfrom as [Hi|Ht0]; rewrite ?Hi, ?Ht0.
    + right. exists cmState.ISSUED, cmState.TRADING.
      unfold cmState.ISSUED, cmState.TRADING, cmState.SIGNED. repeat split; lia.
    + now left.
  - intros Hs.
    assert (e' = e) as ->.
    { destruct Hrel as [->|[_ [Hi|Ht]]]; [reflexivity| |];
        rewrite Hs in *; discriminate. }
    split; [assumption|]. intros c Hc.
    now apply (invokeCall_signed makeKey c _ k e).
  - intros c e1 He1 Ht.
    destruct (commit_invokeCall makeKey c l Hl) as [_ Hstep].
    destruct (Hstep k e He) as (e2 & He2 & Hrel2).
    rewrite He1 in He2. inversion He2; subst e2.
    destruct Hrel2 as [->|(_ & _ & Hfrom)]; [now right|assumption].
Qed.

(** C10. The selector [queryNamed] builds for ['trading'] asks for
    [currentState] equal to 3, which is the encoding of SIGNED and not of
    TRADING: no entity in state TRADING matches it, and what the query
    returns are SIGNED entities only. *)
Theorem queryNamed_trading_is_signed :
  namedSelector "trading" = Ok [("currentState", Equals (JNum 3))]
  /\ cmState.SIGNED = 3
  /\ cmState.TRADING <> 3
  /\ (forall e, isTrading e = true ->
        selects [("currentState", Equals (JNum 3))] e = false)
  /\ (forall ctx l l' rs kv,
        queryNamed ctx "trading" l = (Ok rs, l') -> In kv rs ->
        isSigned (snd kv) = true /\ isTrading (snd kv) = false).
Proof.
  split; [reflexivity|]. split; [reflexivity|]. split; [discriminate|].
  split.
  - intros e Ht. apply isTrading_iff in Ht.
    unfold selects, field. simpl. now rewrite Ht.
  - intros ctx l l' rs kv H Hin.
    unfold queryNamed, queryByAdhoc in H. simpl in H.
    inversion H; subst rs l'. clear H.
    apply filter_In in Hin. destruct Hin as [_ Hsel].
    unfold selects, field in Hsel. simpl in Hsel.
    rewrite andb_true_r in Hsel.
    split; [exact Hsel|].
    apply strict_eq_eq in Hsel. unfold isTrading. now rewrite Hsel.
Qed.

End Specification.

(** ** Where the code departs from the specification, on the scenarios *)

Import Scenario.

(** C1. Scenario C: the contract is TRADING, its owning organisation is the
    caller's, and the signing owner is its issuer; [signContract] nevertheless
    throws, because the list has no method [getmaterial] (nor
    [updatematerial]), and the ledger is left as it was.  No [signContract]
    ever returns. *)
Theorem signContract_never_signs :
  world (holding tradingContract) !! contractKey = Some tradingContract
  /\ isTrading tradingContract = true
  /\ getOwnerMSP tradingContract = JStr (getMSPID digiBank)
  /\ getIssuer tradingContract = JStr "MagnetoCorp"
  /\ signContract joinKey digiBank "MagnetoCorp" (JNum 1001) "MagnetoCorp" "MagnetoCorpMSP"
       (holding tradingContract)
     = (Err (TypeError "getmaterial"), holding tradingContract)
  /\ ContractList_byKey "getmaterial" = None
  /\ ContractList_byState "updatematerial" = None
  /\ (forall makeKey ctx i n so msp l,
        exists err, signContract makeKey ctx i n so msp l = (Err err, l)).
Proof.
  repeat split; try reflexivity.
  intros makeKey ctx i n so msp l. rewrite signContract_throws. eauto.
Qed.

(** C7. On a SIGNED contract, and on a TRADING contract owned by another
    organisation than the caller's, [signContract] throws for the missing
    method [getmaterial], not for the state or the organisation; no
    [signContract] reaches either check.  Nothing is written. *)
Theorem signContract_checks_unreached :
  world (holding signedContract) !! contractKey = Some signedContract
  /\ isSigned signedContract = true
  /\ signContract joinKey magnetoCorp "MagnetoCorp" (JNum 1001) "MagnetoCorp" "MagnetoCorpMSP"
       (holding signedContract)
     = (Err (TypeError "getmaterial"), holding signedContract)
  /\ getOwnerMSP tradingContract <> JStr (getMSPID magnetoCorp)
  /\ signContract joinKey magnetoCorp "MagnetoCorp" (JNum 1001) "MagnetoCorp" "MagnetoCorpMSP"
       (holding tradingContract)
     = (Err (TypeError "getmaterial"), holding tradingContract)
  /\ (forall makeKey ctx i n so msp l,
        fst (signContract makeKey ctx i n so msp l) <> Err AlreadySigned
        /\ fst (signContract makeKey ctx i n so msp l) <> Err Unauthorized
        /\ snd (signContract makeKey ctx i n so msp l) = l).
Proof.
  repeat split; try reflexivity; try discriminate.
  all: rewrite signContract_throws; simpl; try reflexivity.
  all: destruct (makeKey [JStr i; n]); discriminate.
Qed.

(** C2. Scenario A, then a read.  [issue] returns, but the entity sits under
    the key of the issuer and an absent attribute (the constructor reads
    [obj.number], which [createInstance] does not set), not under the key of
    ("MagnetoCorp", 1001): a read or a [selectContract] of that key finds
    nothing, and an [issue] for ("MagnetoCorp", 1002) finds the key taken.
    With the key builder that rejects an empty attribute, [issue] stores
    nothing at all. *)
Theorem issue_key_drops_materialNumber :
  (exists buf, issueA (JNum 5000000) emptyLedger = (Ok buf, afterIssue))
  /\ joinKey [JStr "MagnetoCorp"; JNum 1001] = Some contractKey
  /\ getMaterialContract contractKey afterIssue = (Err NotFound, afterIssue)
  /\ selectContract joinKey digiBank "MagnetoCorp" (JNum 1001) "MagnetoCorp" "DigiBank" afterIssue
     = (Err NotFound, afterIssue)
  /\ (exists mc, world afterIssue !! issuerKey = Some mc
                 /\ materialNumber mc = JNum 1001
                 /\ joinKey [JStr "MagnetoCorp"; JUndefined] = Some (key mc))
  /\ issue joinKey magnetoCorp "MagnetoCorp" (JNum 1002) "Coal" "2024-01-01" (JNum 5000000)
       afterIssue
     = (Err DuplicateKey, afterIssue)
  /\ issue strictKey magnetoCorp "MagnetoCorp" (JNum 1001) "Coal" "2024-01-01" (JNum 5000000)
       emptyLedger
     = (Err InvalidKeyAttribute, emptyLedger).
Proof.
  split; [eexists; vm_compute; reflexivity|].
  split; [vm_compute; reflexivity|].
  split; [vm_compute; reflexivity|].
  split; [vm_compute; reflexivity|].
  split; [eexists; vm_compute; repeat split; reflexivity|].
  split; vm_compute; reflexivity.
Qed.

(** C8, as stated, fails.  With the builder that accepts every attribute,
    an [issue] whose reward is the text "abc" returns: the entity is
    created, with [null] as its reward.  With the builder of the
    specification the call throws, but for its key, as the call with the
    reward 5000000 does: under any builder and on any ledger the two calls
    throw the same error or none. *)
Lemma issue_accepts_nonnumeric_reward :
  parseInt (JStr "abc") = JNaN
  /\ (exists buf l', issueA (JStr "abc") emptyLedger = (Ok buf, l')
        /\ prop buf "rewardValue" = JNull
        /\ exists mc, world l' !! issuerKey = Some mc /\ rewardValue mc = JNull)
  /\ issue strictKey magnetoCorp "MagnetoCorp" (JNum 1001) "Coal" "2024-01-01"
       (JStr "abc") emptyLedger
     = (Err InvalidKeyAttribute, emptyLedger)
  /\ issue strictKey magnetoCorp "MagnetoCorp" (JNum 1001) "Coal" "2024-01-01"
       (JNum 5000000) emptyLedger
     = (Err InvalidKeyAttribute, emptyLedger)
  /\ (forall makeKey ctx i n t a l err,
        fst (issue makeKey ctx i n t a (JStr "abc") l) = Err err
        <-> fst (issue makeKey ctx i n t a (JNum 5000000) l) = Err err).
Proof.
  split; [reflexivity|].
  split; [do 2 eexists; split; [vm_compute; reflexivity|];
          split; [vm_compute; reflexivity|eexists; vm_compute; split; reflexivity]|].
  split; [vm_compute; reflexivity|].
  split; [vm_compute; reflexivity|].
  intros makeKey ctx i n t a l err.
  pose proof (issue_cases makeKey ctx i n t a (JStr "abc") l) as Hc.
  pose proof (issue_cases makeKey ctx i n t a (JNum 5000000) l) as Hc'.
  destruct (makeKey [JStr i; JUndefined]) as [k|]; [|now rewrite Hc, Hc'].
  destruct (world l !! k); rewrite Hc, Hc'; simpl; [tauto|].
  split; discriminate.
Qed.

(** ** The properties above, on the scenarios *)

(** Scenario A's contract, asked for in the name of an owner it does not have. *)
Lemma selectContract_ownership_enforced_witness :
  owner issuedContract <> JStr "DigiBank"
  /\ selectContract joinKey digiBank "MagnetoCorp" (JNum 1001) "DigiBank" "Hedgematic"
       (holding issuedContract)
     = (Err OwnershipMismatch, holding issuedContract).
Proof.
  split; [discriminate|].
  apply (selectContract_ownership_enforced joinKey digiBank "MagnetoCorp" (JNum 1001)
           "DigiBank" "Hedgematic" (holding issuedContract) contractKey issuedContract);
    [reflexivity | reflexivity | discriminate].
Defined.

(** Scenario B. *)
Lemma selectContract_transfers_witness :
  selectContract joinKey digiBank "MagnetoCorp" (JNum 1001) "MagnetoCorp" "DigiBank"
    (holding issuedContract)
  = (Ok tradingContract, putState contractKey tradingContract (holding issuedContract))
  /\ currentState tradingContract = JNum cmState.TRADING
  /\ owner tradingContract = JStr "DigiBank".
Proof.
  split; [|split; reflexivity].
  apply (selectContract_transfers joinKey digiBank "MagnetoCorp" (JNum 1001)
           "MagnetoCorp" "DigiBank" (holding issuedContract) contractKey issuedContract);
    [reflexivity | reflexivity | reflexivity | reflexivity | left; reflexivity].
Defined.

(** Scenario A. *)
Lemma issue_creates_issued_witness :
  exists mc, currentState mc = JNum cmState.ISSUED
             /\ owner mc = JStr "MagnetoCorp"
             /\ mspid mc = JStr "MagnetoCorpMSP"
             /\ rewardValue mc = JNum 5000000
             /\ world afterIssue !! key mc = Some (jsonRoundTrip mc)
             /\ toBuffer mc
                = [("class", JStr "org.materialnet.materialcontract");
                   ("key", JStr "org.materialnet.materialcontractlist:MagnetoCorp:");
                   ("issuer", JStr "MagnetoCorp"); ("materialNumber", JNum 1001);
                   ("matetialType", JStr "Coal"); ("arrivalTime", JStr "2024-01-01");
                   ("rewardValue", JNum 5000000); ("currentState", JNum 1);
                   ("mspid", JStr "MagnetoCorpMSP"); ("owner", JStr "MagnetoCorp")].
Proof.
  destruct (issue_creates_issued joinKey magnetoCorp "MagnetoCorp" (JNum 1001)
              "Coal" "2024-01-01" (JNum 5000000) emptyLedger afterIssue
              [("class", JStr "org.materialnet.materialcontract");
               ("key", JStr "org.materialnet.materialcontractlist:MagnetoCorp:");
               ("issuer", JStr "MagnetoCorp"); ("materialNumber", JNum 1001);
               ("matetialType", JStr "Coal"); ("arrivalTime", JStr "2024-01-01");
               ("rewardValue", JNum 5000000); ("currentState", JNum 1);
               ("mspid", JStr "MagnetoCorpMSP"); ("owner", JStr "MagnetoCorp")])
    as (mc & Hs & Ho & Hm & _ & _ & _ & _ & Hr & _ & _ & _ & Hw & Hb & _).
  - vm_compute. reflexivity.
  - exists mc. repeat split; try assumption. now symmetry.
Defined.

(** Scenario A, issued again by another caller. *)
Lemma issue_twice_duplicate_witness :
  issue joinKey digiBank "MagnetoCorp" (JNum 1001) "Iron" "2024-02-02" (JNum 1) afterIssue
  = (Err DuplicateKey, afterIssue).
Proof.
  apply (issue_twice_duplicate joinKey magnetoCorp digiBank "MagnetoCorp" (JNum 1001)
           "Coal" "2024-01-01" "Iron" "2024-02-02" (JNum 5000000) (JNum 1)
           emptyLedger afterIssue
           (toBuffer (issued magnetoCorp issuerKey "MagnetoCorp" (JNum 1001)
                        "Coal" "2024-01-01" (JNum 5000000)))).
  vm_compute. reflexivity.
Defined.

(** Scenario A's contract through the run [calls]. *)
Lemma lifecycle_never_regresses_witness :
  storedByKey (holding issuedContract)
  /\ exists e', world (runCalls joinKey calls (holding issuedContract)) !! contractKey = Some e'
                /\ stateLe (currentState issuedContract) (currentState e').
Proof.
  split; [apply storedByKey_holding|].
  apply (lifecycle_never_regresses joinKey calls (holding issuedContract)
           contractKey issuedContract);
    [apply storedByKey_holding | reflexivity].
Defined.

(** The contract after Scenario B is TRADING and is not selected. *)
Lemma queryNamed_trading_is_signed_witness :
  isTrading tradingContract = true
  /\ selects [("currentState", Equals (JNum 3))] tradingContract = false.
Proof.
  split; [reflexivity|].
  apply queryNamed_trading_is_signed. reflexivity.
Defined.

(** * Further properties of the entity *)

(** ** The state tests and the setters *)

(** X1. The three encodings differ, so at most one of the three state tests
    holds of an entity; after [setIssued], [setTrading] or [setSigned]
    exactly the test of that name holds. *)
Theorem state_tests_exclusive (e : MaterialContract) :
  (isIssued e && isTrading e = false)
  /\ (isIssued e && isSigned e = false)
  /\ (isTrading e && isSigned e = false)
  /\ (isIssued (setIssued e) = true /\ isTrading (setIssued e) = false
      /\ isSigned (setIssued e) = false)
  /\ (isIssued (setTrading e) = false /\ isTrading (setTrading e) = true
      /\ isSigned (setTrading e) = false)
  /\ (isIssued (setSigned e) = false /\ isTrading (setSigned e) = false
      /\ isSigned (setSigned e) = true).
Proof.
  unfold isIssued, isTrading, isSigned.
  destruct (currentState e) as [| | |b|s|s]; simpl; repeat split; try reflexivity.
  all: unfold cmState.ISSUED, cmState.TRADING, cmState.SIGNED.
  all: destruct (Z.eqb_spec s 1), (Z.eqb_spec s 2), (Z.eqb_spec s 3);
    simpl; try reflexivity; lia.
Qed.



(** ** Serialisation *)

(** X3. What a reader finds in the serialisation [toBuffer] makes: every
    property of the entity under its name, a [NaN] as [null], an [undefined]
    property not at all, and nothing under any other name; no value in it is
    [undefined] or [NaN]. *)
Theorem toBuffer_reads (e : MaterialContract) :
  (forall name, prop (toBuffer e) name = jsonValue (field e name))
  /\ (forall name, existsb (String.eqb name) propertyNames = false ->
        prop (toBuffer e) name = JUndefined)
  /\ (forall name v, In (name, v) (toBuffer e) -> v <> JUndefined /\ v <> JNaN).
Proof.
  split; [apply toBuffer_prop|]. split.
  - intros name H. rewrite toBuffer_prop. now rewrite field_unnamed.
  - intros name v Hin. unfold toBuffer in Hin.
    apply in_flat_map in Hin. destruct Hin as (n & _ & Hin).
    destruct (field e n); simpl in Hin; try contradiction.
    all: destruct Hin as [Heq|[]]; inversion Heq; split; discriminate.
Qed.


(** * Further properties of the transactions *)

Lemma putState_dom_present (k : string) (v : MaterialContract) (l : ledger) :
  is_Some (world l !! k) -> dom (world (putState k v l)) = dom (world l).
Proof.
  intros Hk. simpl. rewrite dom_insert_L.
  apply elem_of_dom in Hk.
  apply subseteq_union_1_L. now apply singleton_subseteq_l.
Qed.

Lemma filter_none {A : Type} (f : A -> bool) (xs : list A) :
  (forall x, In x xs -> f x = false) -> List.filter f xs = [].
Proof.
  induction xs as [|x xs IH]; intros H; [reflexivity|]. simpl.
  rewrite (H x (or_introl eq_refl)). apply IH. intros y Hy. apply H. now right.
Qed.

Section StepFacts.

Variable makeKey : list jsval -> option string.

(** What a committed [selectContract] does to the ledger: nothing, or one
    write, of the transferred entity, over the entry under the key that
    entity carries. *)
Lemma commit_selectContract_step (ctx : Context) (i : string) (n : jsval)
    (co no : string) (l : ledger) :
  commit (selectContract makeKey ctx i n co no) l = l
  \/ exists k e,
       makeKey [JStr i; n] = Some k /\ world l !! k = Some e
       /\ owner e = JStr co
       /\ (isIssued e = true \/ isTrading e = true)
       /\ is_Some (world l !! key e)
       /\ commit (selectContract makeKey ctx i n co no) l
          = putState (key e) (transferred ctx no e) l.
Proof.
  unfold commit.
  pose proof (selectContract_cases makeKey ctx i n co no l) as H.
  destruct (selectContract makeKey ctx i n co no l) as [[e'|err] l']; [|now left].
  destruct H as (k & e & Hk & He & Hown & Hst & Hup & -> & ->).
  right. exists k, e. auto 10.
Qed.

Lemma commit_invokeCall_step (c : call) (l : ledger) :
  commit (invokeCall makeKey c) l = l
  \/ exists ctx no k e,
       callKey makeKey c = Some k /\ world l !! k = Some e
       /\ (isIssued e = true \/ isTrading e = true)
       /\ is_Some (world l !! key e)
       /\ commit (invokeCall makeKey c) l
          = putState (key e) (transferred ctx no e) l.
Proof.
  destruct c as [ctx i n co no|ctx i n so msp]; simpl.
  - destruct (commit_selectContract_step ctx i n co no l)
      as [H|(k & e & Hk & He & _ & Hst & Hup & H)]; [now left|].
    right. exists ctx, no, k, e. auto 10.
  - left. apply commit_signContract.
Qed.

Lemma transferred_sameContract (ctx : Context) (no : string) (e : MaterialContract) :
  sameContract e (transferred ctx no e).
Proof. unfold transferred, sameContract. destruct (isIssued e); repeat split. Qed.

(** A relation that holds between an entity and itself, that composes, and
    that a transfer respects, holds between each entry and what any run of
    invocations leaves in its place. *)
Lemma runCalls_related (R : MaterialContract -> MaterialContract -> Prop) :
  (forall e, R e e) ->
  (forall a b c, R a b -> R b c -> R a c) ->
  (forall ctx no e, isIssued e = true \/ isTrading e = true ->
                    R e (transferred ctx no e)) ->
  forall cs l, storedByKey l ->
  forall k e, world l !! k = Some e ->
  exists e', world (runCalls makeKey cs l) !! k = Some e' /\ R e e'.
Proof.
  intros Hrefl Htrans Hstep cs.
  induction cs as [|c cs IH]; intros l Hl k e He; [exists e; auto|].
  rewrite runCalls_cons.
  destruct (commit_invokeCall makeKey c l Hl) as [Hl1 _].
  destruct (commit_invokeCall_step c l)
    as [Heq|(ctx & no & k0 & e0 & _ & He0 & Hst & _ & Heq)].
  - rewrite Heq in *. now apply IH.
  - assert (key e0 = k0) as Hkey by now apply Hl.
    destruct (decide (k0 = k)) as [<-|Hne].
    + rewrite He in He0. inversion He0; subst e0.
      destruct (IH _ Hl1 k0 (transferred ctx no e)) as (e' & He' & HR).
      { rewrite Heq, Hkey. apply putState_lookup. }
      exists e'. split; [assumption|]. eapply Htrans; [|exact HR]. now apply Hstep.
    + apply (IH _ Hl1 k e). rewrite Heq, Hkey.
      now rewrite putState_lookup_ne.
Qed.

Lemma runCalls_dom (cs : list call) (l : ledger) :
  dom (world (runCalls makeKey cs l)) = dom (world l).
Proof.
  revert l. induction cs as [|c cs IH]; intros l; [reflexivity|].
  rewrite runCalls_cons, IH.
  destruct (commit_invokeCall_step c l)
    as [->|(ctx & no & k0 & e0 & _ & _ & _ & Hup & ->)]; [reflexivity|].
  now apply putState_dom_present.
Qed.

End StepFacts.

Section Transfers.

Variable makeKey : list jsval -> option string.

(** X5. On a ledger whose entries sit under their own keys, no run of
    [selectContract] and [signContract] invocations changes the class tag,
    the key, the issuer, the material number, the type, the arrival time or
    the reward of an entry: transfers move the owner, the owning
    organisation and the state only. *)
Theorem runCalls_keeps_contract (cs : list call) (l : ledger) (k : string)
    (e : MaterialContract) :
  storedByKey l ->
  world l !! k = Some e ->
  exists e', world (runCalls makeKey cs l) !! k = Some e' /\ sameContract e e'.
Proof.
  intros Hl He.
  apply (runCalls_related makeKey sameContract); try assumption.
  - intros a. now repeat split.
  - intros a b c (H1 & H2 & H3 & H4 & H5 & H6 & H7) (G1 & G2 & G3 & G4 & G5 & G6 & G7).
    repeat split; congruence.
  - intros ctx no a _. apply transferred_sameContract.
Qed.

(** X6. A run of [selectContract] and [signContract] invocations neither
    adds nor removes an entry, on any ledger: the keys after are the keys
    before. *)
Theorem runCalls_keeps_keys (cs : list call) (l : ledger) :
  dom (world (runCalls makeKey cs l)) = dom (world l)
  /\ (forall k, world (runCalls makeKey cs l) !! k = None <-> world l !! k = None)
  /\ size (world (runCalls makeKey cs l)) = size (world l).
Proof.
  pose proof (runCalls_dom makeKey cs l) as Hd.
  split; [assumption|]. split.
  - intros k. rewrite <- !not_elem_of_dom. now rewrite Hd.
  - rewrite <- !size_dom. now rewrite Hd.
Qed.

(** X7. An [issue] that returns has added exactly one entry, under a key
    that held nothing, and has issued exactly one write; every other entry
    is as it was. *)
Theorem issue_adds_one_entry (ctx : Context) (i : string) (n : jsval)
    (t a : string) (r : jsval) (l l' : ledger) (buf : object) :
  issue makeKey ctx i n t a r l = (Ok buf, l') ->
  exists k mc,
    makeKey [JStr i; JUndefined] = Some k
    /\ world l !! k = None
    /\ world l' !! k = Some mc
    /\ (forall k', k' <> k -> world l' !! k' = world l !! k')
    /\ puts l' = (puts l ++ [(k, mc)])%list
    /\ size (world l') = S (size (world l)).
Proof.
  intros H. pose proof (issue_cases makeKey ctx i n t a r l) as Hc.
  destruct (makeKey [JStr i; JUndefined]) as [k|]; [|congruence].
  destruct (world l !! k) eqn:Hfree; [congruence|].
  rewrite Hc in H. inversion H; subst buf l'. clear H.
  exists k, (jsonRoundTrip (issued ctx k i n t a r)). split; [reflexivity|].
  split; [assumption|]. split; [apply putState_lookup|].
  split; [intros k' Hne; apply putState_lookup_ne; congruence|].
  split; [reflexivity|]. simpl. now apply map_size_insert_None.
Qed.

(** X8. On a ledger whose entries sit under their own keys, a
    [selectContract] returns exactly when the key it addresses holds an
    entity whose owner is [currentOwner] and whose state is ISSUED or
    TRADING; and whenever it throws, for whatever reason, it has written
    nothing. *)
Theorem selectContract_returns_iff (ctx : Context) (i : string) (n : jsval)
    (co no : string) (l : ledger) :
  storedByKey l ->
  ((exists e' l', selectContract makeKey ctx i n co no l = (Ok e', l'))
   <-> (exists k e, makeKey [JStr i; n] = Some k /\ world l !! k = Some e
          /\ owner e = JStr co
          /\ (currentState e = JNum cmState.ISSUED
              \/ currentState e = JNum cmState.TRADING)))
  /\ (forall err l', selectContract makeKey ctx i n co no l = (Err err, l') -> l' = l).
Proof.
  intros Hl. pose proof (selectContract_cases makeKey ctx i n co no l) as Hc.
  split; [split|].
  - intros (e' & l' & H). rewrite H in Hc.
    destruct Hc as (k & e & Hk & He & Hown & Hst & _).
    exists k, e. repeat split; try assumption.
    destruct Hst as [Hi|Ht]; [left; now apply isIssued_iff|right; now apply isTrading_iff].
  - intros (k & e & Hk & He & Hown & Hst).
    rewrite (selectContract_owner makeKey ctx i n co no l k e Hk He Hown).
    assert (isIssued e || isTrading e = true) as ->.
    { destruct Hst as [Hs|Hs].
      - apply isIssued_iff in Hs. now rewrite Hs.
      - apply isTrading_iff in Hs. rewrite Hs. apply orb_true_r. }
    rewrite updateState_present; [eauto|].
    rewrite transferred_key, (Hl k e He), He. eauto.
  - intros err l' H. now rewrite H in Hc.
Qed.

(** X9. On a ledger whose entries sit under their own keys, a
    [selectContract] that returns has issued exactly one write, of the entity
    it returns, under the key it addresses; every other entry is as it
    was. *)
Theorem selectContract_touches_one_entry (ctx : Context) (i : string) (n : jsval)
    (co no : string) (l l' : ledger) (e' : MaterialContract) :
  storedByKey l ->
  selectContract makeKey ctx i n co no l = (Ok e', l') ->
  exists k,
    makeKey [JStr i; n] = Some k
    /\ world l' !! k = Some e'
    /\ (forall k', k' <> k -> world l' !! k' = world l !! k')
    /\ puts l' = (puts l ++ [(k, e')])%list.
Proof.
  intros Hl H. pose proof (selectContract_cases makeKey ctx i n co no l) as Hc.
  rewrite H in Hc. destruct Hc as (k & e & Hk & He & _ & _ & _ & -> & ->).
  rewrite (Hl k e He). exists k. split; [assumption|].
  split; [apply putState_lookup|].
  split; [intros k' Hne; apply putState_lookup_ne; congruence|reflexivity].
Qed.


(** X11. After a [selectContract] has passed a contract to [newOwner], a
    [selectContract] naming [newOwner] as current owner returns, whoever calls
    it: the contract stays TRADING, goes to the next owner, and takes the
    caller's organisation as owning organisation. *)
Theorem selectContract_chains (ctx : Context) (i : string) (n : jsval)
    (co no : string) (l l' : ledger) (e' : MaterialContract) :
  storedByKey l ->
  selectContract makeKey ctx i n co no l = (Ok e', l') ->
  forall ctx2 no2,
    let e'' := setOwnerMSP (JStr (getMSPID ctx2)) (setOwner (JStr no2) e') in
    selectContract makeKey ctx2 i n no no2 l' = (Ok e'', putState (key e') e'' l')
    /\ currentState e'' = JNum cmState.TRADING
    /\ owner e'' = JStr no2.
Proof.
  intros Hl H ctx2 no2 e''.
  pose proof (selectContract_cases makeKey ctx i n co no l) as Hc.
  rewrite H in Hc. destruct Hc as (k & e & Hk & He & _ & Hst & _ & -> & ->).
  assert (currentState (transferred ctx no e) = JNum cmState.TRADING) as Hs.
  { rewrite transferred_state. destruct Hst as [->|Ht]; [reflexivity|].
    apply isTrading_iff in Ht. now destruct (isIssued e). }
  assert (isIssued (transferred ctx no e) = false) as Hi.
  { unfold isIssued. now rewrite Hs. }
  assert (transferred ctx2 no2 (transferred ctx no e) = e'') as Htr.
  { unfold transferred at 1. now rewrite Hi. }
  assert (world (putState (key e) (transferred ctx no e) l) !! k
          = Some (transferred ctx no e)) as Hw.
  { rewrite (Hl k e He). apply putState_lookup. }
  split; [|split; [exact Hs|reflexivity]].
  rewrite (selectContract_owner makeKey ctx2 i n no no2 _ k (transferred ctx no e) Hk Hw)
    by (unfold transferred; reflexivity).
  rewrite Hi. simpl. unfold isTrading. rewrite Hs. simpl. rewrite Htr.
  rewrite updateState_present; [reflexivity|].
  replace (key e'') with (key e) by (symmetry; apply transferred_key).
  rewrite putState_lookup. eauto.
Qed.

(** X12. [selectContract] does not look at who calls it: two callers making
    the same call on the same ledger both get through or both get the same
    error, and when they get through the entities written differ in the
    owning organisation only. *)
Theorem selectContract_any_caller (ctx ctx' : Context) (i : string) (n : jsval)
    (co no : string) (l : ledger) :
  match selectContract makeKey ctx i n co no l,
        selectContract makeKey ctx' i n co no l with
  | (Ok e1, l1), (Ok e2, l2) =>
      e2 = setOwnerMSP (JStr (getMSPID ctx')) e1
      /\ l1 = putState (key e1) e1 l /\ l2 = putState (key e1) e2 l
  | (Err err1, l1), (Err err2, l2) => err1 = err2 /\ l1 = l /\ l2 = l
  | _, _ => False
  end.
Proof.
  unfold selectContract, makeKeyM.
  unfold mbind, M_bind, mret, M_ret, throw. simpl.
  destruct (makeKey [JStr i; n]) as [k|]; [|auto].
  unfold getMaterialContract, getState.
  destruct (world l !! k) as [e|]; [|auto].
  destruct (strict_eq (getOwner e) (JStr co)); simpl; [|auto].
  unfold updateMaterialContract, updateState.
  destruct (isIssued e); simpl.
  - destruct (world l !! key e); auto.
  - destruct (isTrading e); [|auto]. simpl.
    destruct (world l !! key e); auto.
Qed.

End Transfers.

(** * What holds of every ledger the transactions reach *)

Section Reachable.

Variable makeKey : list jsval -> option string.

Lemma issued_wellIssued (ctx : Context) (k i : string) (n : jsval) (t a : string)
    (r : jsval) :
  makeKey [JStr i; JUndefined] = Some k ->
  wellIssued makeKey (jsonRoundTrip (issued ctx k i n t a r)).
Proof.
  intros Hk. unfold wellIssued.
  split; [reflexivity|]. split; [exists i; auto|].
  repeat (split; [reflexivity|]).
  split; [apply jsonValue_parseInt|].
  split; [apply jsonRoundTrip_idempotent|now left].
Qed.

Lemma transferred_wellIssued (ctx : Context) (no : string) (e : MaterialContract) :
  wellIssued makeKey e -> wellIssued makeKey (transferred ctx no e).
Proof.
  intros (Hc & Hi & Ho & Hm & Ht & Ha & Hr & Hj & Hs).
  unfold wellIssued. rewrite transferred_key, transferred_state.
  split; [unfold transferred; now destruct (isIssued e)|].
  split; [unfold transferred; now destruct (isIssued e)|].
  split; [reflexivity|]. split; [reflexivity|].
  split; [unfold transferred; now destruct (isIssued e)|].
  split; [unfold transferred; now destruct (isIssued e)|].
  split; [unfold transferred; now destruct (isIssued e)|].
  split; [now apply transferred_jsonRoundTrip|].
  destruct (isIssued e); auto.
Qed.

(** Every entry of a reachable ledger sits under its own key and has the
    shape the transactions give it. *)
Lemma reachable_entries (l : ledger) :
  reachable makeKey l ->
  forall k e, world l !! k = Some e -> key e = k /\ wellIssued makeKey e.
Proof.
  induction 1 as [|l ctx i n t a r _ IH|l c _ IH]; intros k e He.
  - simpl in He. rewrite lookup_empty in He. discriminate.
  - unfold commit in He.
    pose proof (issue_cases makeKey ctx i n t a r l) as Hc.
    destruct (makeKey [JStr i; JUndefined]) as [k0|] eqn:Hk0;
      [|rewrite Hc in He; now apply IH].
    destruct (world l !! k0); rewrite Hc in He; [now apply IH|].
    destruct (decide (k0 = k)) as [<-|Hne].
    + rewrite putState_lookup in He. inversion He; subst e.
      split; [reflexivity|]. now apply issued_wellIssued.
    + rewrite putState_lookup_ne in He by assumption. now apply IH.
  - destruct (commit_invokeCall_step makeKey c l)
      as [Heq|(ctx & no & k0 & e0 & _ & He0 & _ & _ & Heq)];
      rewrite Heq in He; [now apply IH|].
    destruct (IH k0 e0 He0) as [Hk0 Hw0]. rewrite Hk0 in He.
    destruct (decide (k0 = k)) as [<-|Hne].
    + rewrite putState_lookup in He. inversion He; subst e.
      split; [now rewrite transferred_key|]. now apply transferred_wellIssued.
    + rewrite putState_lookup_ne in He by assumption. now apply IH.
Qed.

(** X13. Every entry of a ledger that [issue], [selectContract] and
    [signContract] reach from the empty one is ISSUED or TRADING and never
    SIGNED; it carries the class tag, sits under the key it carries, has
    text as owner and owning organisation and a finite number or [null] as
    reward, and reads back from its serialisation as it is. *)
Theorem reachable_never_signed (l : ledger) (k : string) (e : MaterialContract) :
  reachable makeKey l ->
  world l !! k = Some e ->
  isSigned e = false
  /\ (isIssued e = true \/ isTrading e = true)
  /\ class e = getClass
  /\ key e = k
  /\ isString (owner e) = true
  /\ isString (mspid e) = true
  /\ (isFinite (rewardValue e) = true \/ rewardValue e = JNull)
  /\ jsonRoundTrip e = e.
Proof.
  intros Hl He.
  destruct (reachable_entries l Hl k e He)
    as (Hk & Hc & _ & Ho & Hm & _ & _ & Hr & Hj & Hs).
  split; [|split; [|auto 10]].
  - unfold isSigned. destruct Hs as [->| ->]; reflexivity.
  - destruct Hs as [Hs|Hs]; [left; now apply isIssued_iff|right; now apply isTrading_iff].
Qed.

(** X14. A reachable ledger holds at most one contract per issuer: the key
    of an entry is made of its issuer alone, so two entries with the same
    issuer are one entry, whatever their material numbers. *)
Theorem reachable_one_per_issuer (l : ledger) (k1 k2 : string)
    (e1 e2 : MaterialContract) :
  reachable makeKey l ->
  world l !! k1 = Some e1 ->
  world l !! k2 = Some e2 ->
  issuer e1 = issuer e2 ->
  k1 = k2 /\ e1 = e2.
Proof.
  intros Hl H1 H2 Hi.
  destruct (reachable_entries l Hl k1 e1 H1) as (Hk1 & _ & (i1 & Hi1 & Hm1) & _).
  destruct (reachable_entries l Hl k2 e2 H2) as (Hk2 & _ & (i2 & Hi2 & Hm2) & _).
  assert (k1 = k2) as <-.
  { rewrite Hi1, Hi2 in Hi. inversion Hi; subst i2. congruence. }
  split; [reflexivity|congruence].
Qed.

End Reachable.

(** * Named queries *)

Lemma queryByAdhoc_none (sel : selector) (l : ledger) :
  (forall k e, world l !! k = Some e -> selects sel e = false) ->
  queryByAdhoc sel l = (Ok [], l).
Proof.
  intros H. unfold queryByAdhoc. rewrite filter_none; [reflexivity|].
  intros [k e] Hin. simpl. apply (H k).
  apply elem_of_map_to_list. now apply list_elem_of_In.
Qed.

(** X15. [queryNamed] knows three names.  For any other name it throws and
    leaves the ledger alone; for each of the three it returns. *)
Theorem queryNamed_names (ctx : Context) (queryname : string) (l : ledger) :
  (queryname <> "redeemed" -> queryname <> "trading" -> queryname <> "value" ->
   queryNamed ctx queryname l = (Err UnknownNamedQuery, l))
  /\ (queryname = "redeemed" \/ queryname = "trading" \/ queryname = "value" ->
      exists rs, queryNamed ctx queryname l = (Ok rs, l)).
Proof.
  split.
  - intros H1 H2 H3. unfold queryNamed, namedSelector.
    apply String.eqb_neq in H1, H2, H3. now rewrite H1, H2, H3.
  - intros [ -> | [ -> | -> ] ]; unfold queryNamed; simpl; unfold queryByAdhoc; eauto.
Qed.

(** X16. The selector of ['value'] names the property [faceValue], which no
    MaterialContract has (the reward is kept as [rewardValue]): the query
    returns no entity, whatever the ledger holds. *)
Theorem queryNamed_value_empty (ctx : Context) (l : ledger) :
  queryNamed ctx "value" l = (Ok [], l).
Proof.
  unfold queryNamed. simpl. apply queryByAdhoc_none.
  intros k e _. reflexivity.
Qed.

(** X17. On every ledger the transactions reach, each of the three named
    queries returns no entity: ['redeemed'] asks for a state 4 that no
    contract takes, ['trading'] for the state 3 that no contract reaches,
    ['value'] for a property no contract has. *)
Theorem queryNamed_reachable_empty (makeKey : list jsval -> option string)
    (ctx : Context) (queryname : string) (l : ledger) (rs : list (string * MaterialContract))
    (l' : ledger) :
  reachable makeKey l ->
  queryNamed ctx queryname l = (Ok rs, l') ->
  rs = [] /\ l' = l.
Proof.
  intros Hl H.
  assert (forall s, (s = 3 \/ s = 4) ->
            queryByAdhoc [("currentState", Equals (JNum s))] l = (Ok [], l)) as Hq.
  { intros s Hs. apply queryByAdhoc_none. intros k e He.
    destruct (reachable_entries makeKey l Hl k e He)
      as (_ & _ & _ & _ & _ & _ & _ & _ & _ & Hst).
    unfold selects, field. simpl.
    unfold cmState.ISSUED, cmState.TRADING in Hst.
    destruct Hst as [->| ->]; simpl; destruct Hs as [->| ->]; reflexivity. }
  unfold queryNamed, namedSelector in H.
  destruct (String.eqb queryname "redeemed").
  { rewrite Hq in H by auto. now inversion H. }
  destruct (String.eqb queryname "trading").
  { rewrite Hq in H by auto. now inversion H. }
  destruct (String.eqb queryname "value"); [|discriminate].
  rewrite (queryByAdhoc_none _ l) in H; [now inversion H|].
  intros k e _. reflexivity.
Qed.

(** * What [issue] returns *)

(** X18. The serialisation an [issue] returns reads: state 1, the issuer as
    issuer and as owner, the caller's organisation, the class tag, the
    material number, type and arrival time as given, and as reward what
    [parseInt] made of the argument, a number or [null], never text. *)
Theorem issue_returns_readable (makeKey : list jsval -> option string)
    (ctx : Context) (i : string) (n : jsval) (t a : string) (r : jsval)
    (l l' : ledger) (buf : object) :
  issue makeKey ctx i n t a r l = (Ok buf, l') ->
  prop buf "currentState" = JNum cmState.ISSUED
  /\ prop buf "issuer" = JStr i
  /\ prop buf "owner" = JStr i
  /\ prop buf "mspid" = JStr (getMSPID ctx)
  /\ prop buf "class" = JStr getClass
  /\ prop buf "materialNumber" = jsonValue n
  /\ prop buf "matetialType" = JStr t
  /\ prop buf "arrivalTime" = JStr a
  /\ prop buf "rewardValue" = jsonValue (parseInt r)
  /\ ((exists z, prop buf "rewardValue" = JNum z) \/ prop buf "rewardValue" = JNull).
Proof.
  intros H. pose proof (issue_cases makeKey ctx i n t a r l) as Hc.
  destruct (makeKey [JStr i; JUndefined]) as [k|]; [|congruence].
  destruct (world l !! k) eqn:Hfree; [congruence|].
  rewrite Hc in H. inversion H; subst buf l'. clear H.
  rewrite !toBuffer_prop. unfold field. simpl.
  pose proof (parseInt_isNumber r) as Hn.
  repeat (split; [reflexivity|]).
  destruct (parseInt r); try discriminate; simpl; eauto.
Qed.

(** * The further properties, on the scenarios *)

Lemma afterBought_reachable : reachable joinKey Run.afterBought.
Proof.
  exact (reachable_call joinKey afterIssue
           (SelectContract digiBank "MagnetoCorp" JUndefined "MagnetoCorp" "DigiBank")
           (reachable_issue joinKey emptyLedger magnetoCorp "MagnetoCorp" (JNum 1001)
              "Coal" "2024-01-01" (JNum 5000000) (reachable_empty joinKey))).
Qed.


Lemma runCalls_keeps_contract_witness :
  exists e', world (runCalls joinKey calls (holding issuedContract)) !! contractKey = Some e'
             /\ sameContract issuedContract e'.
Proof.
  apply (runCalls_keeps_contract joinKey calls (holding issuedContract)
           contractKey issuedContract);
    [apply storedByKey_holding | reflexivity].
Defined.

Lemma issue_adds_one_entry_witness :
  exists k mc, joinKey [JStr "MagnetoCorp"; JUndefined] = Some k
               /\ world emptyLedger !! k = None
               /\ world afterIssue !! k = Some mc
               /\ (forall k', k' <> k -> world afterIssue !! k' = world emptyLedger !! k')
               /\ puts afterIssue = (puts emptyLedger ++ [(k, mc)])%list
               /\ size (world afterIssue) = S (size (world emptyLedger)).
Proof.
  apply (issue_adds_one_entry joinKey magnetoCorp "MagnetoCorp" (JNum 1001)
           "Coal" "2024-01-01" (JNum 5000000) emptyLedger afterIssue
           (toBuffer (issued magnetoCorp issuerKey "MagnetoCorp" (JNum 1001)
                        "Coal" "2024-01-01" (JNum 5000000)))).
  vm_compute. reflexivity.
Defined.

Lemma selectContract_returns_iff_witness :
  exists e' l',
    selectContract joinKey digiBank "MagnetoCorp" (JNum 1001) "MagnetoCorp" "DigiBank"
      (holding issuedContract) = (Ok e', l').
Proof.
  apply (selectContract_returns_iff joinKey digiBank "MagnetoCorp" (JNum 1001)
           "MagnetoCorp" "DigiBank" (holding issuedContract)
           (storedByKey_holding issuedContract)).
  exists contractKey, issuedContract.
  repeat split; try reflexivity. now left.
Defined.

Lemma selectContract_touches_one_entry_witness :
  exists k,
    joinKey [JStr "MagnetoCorp"; JNum 1001] = Some k
    /\ world (putState contractKey tradingContract (holding issuedContract)) !! k
       = Some tradingContract
    /\ (forall k', k' <> k ->
          world (putState contractKey tradingContract (holding issuedContract)) !! k'
          = world (holding issuedContract) !! k')
    /\ puts (putState contractKey tradingContract (holding issuedContract))
       = (puts (holding issuedContract) ++ [(k, tradingContract)])%list.
Proof.
  apply (selectContract_touches_one_entry joinKey digiBank "MagnetoCorp" (JNum 1001)
           "MagnetoCorp" "DigiBank" (holding issuedContract));
    [apply storedByKey_holding | vm_compute; reflexivity].
Defined.


(** DigiBank, having bought, sells on to Hedgematic. *)
Lemma selectContract_chains_witness :
  fst (selectContract joinKey magnetoCorp "MagnetoCorp" (JNum 1001) "DigiBank" "Hedgematic"
         (putState contractKey tradingContract (holding issuedContract)))
  = Ok (setOwnerMSP (JStr "MagnetoCorpMSP") (setOwner (JStr "Hedgematic") tradingContract)).
Proof.
  destruct (selectContract_chains joinKey digiBank "MagnetoCorp" (JNum 1001)
              "MagnetoCorp" "DigiBank" (holding issuedContract)
              (putState contractKey tradingContract (holding issuedContract))
              tradingContract (storedByKey_holding issuedContract))
    with (ctx2 := magnetoCorp) (no2 := "Hedgematic") as (H & _).
  - vm_compute. reflexivity.
  - rewrite H. reflexivity.
Defined.

Lemma reachable_never_signed_witness :
  exists e, world Run.afterBought !! issuerKey = Some e
            /\ isSigned e = false /\ isTrading e = true.
Proof.
  exists (transferred digiBank "DigiBank"
            (issued magnetoCorp issuerKey "MagnetoCorp" (JNum 1001)
               "Coal" "2024-01-01" (JNum 5000000))).
  split; [vm_compute; reflexivity|].
  split; [|reflexivity].
  apply (reachable_never_signed joinKey Run.afterBought issuerKey);
    [apply afterBought_reachable | vm_compute; reflexivity].
Defined.

Lemma reachable_one_per_issuer_witness :
  world Run.afterBought !! issuerKey
  = Some (transferred digiBank "DigiBank"
            (issued magnetoCorp issuerKey "MagnetoCorp" (JNum 1001)
               "Coal" "2024-01-01" (JNum 5000000)))
  /\ issuerKey = issuerKey.
Proof.
  split; [vm_compute; reflexivity|].
  apply (reachable_one_per_issuer joinKey Run.afterBought issuerKey issuerKey
           (transferred digiBank "DigiBank"
              (issued magnetoCorp issuerKey "MagnetoCorp" (JNum 1001)
                 "Coal" "2024-01-01" (JNum 5000000)))
           (transferred digiBank "DigiBank"
              (issued magnetoCorp issuerKey "MagnetoCorp" (JNum 1001)
                 "Coal" "2024-01-01" (JNum 5000000))));
    [apply afterBought_reachable | vm_compute; reflexivity
     | vm_compute; reflexivity | reflexivity].
Defined.

Lemma queryNamed_names_witness :
  queryNamed digiBank "signed" afterIssue = (Err UnknownNamedQuery, afterIssue).
Proof.
  apply queryNamed_names; discriminate.
Defined.

Lemma queryNamed_reachable_empty_witness :
  match queryNamed digiBank "trading" Run.afterBought with
  | (Ok rs, l') => rs = [] /\ l' = Run.afterBought
  | (Err _, _) => False
  end.
Proof.
  destruct (queryNamed digiBank "trading" Run.afterBought) as [[rs|err] l'] eqn:E.
  - exact (queryNamed_reachable_empty joinKey digiBank "trading" Run.afterBought rs l'
             afterBought_reachable E).
  - vm_compute in E. discriminate.
Defined.

(** Scenario A with the text "abc" as reward. *)
Lemma issue_returns_readable_witness :
  match issueA (JStr "abc") emptyLedger with
  | (Ok buf, _) => prop buf "rewardValue" = JNull /\ prop buf "owner" = JStr "MagnetoCorp"
  | (Err _, _) => False
  end.
Proof.
  destruct (issueA (JStr "abc") emptyLedger) as [[buf|err] l'] eqn:E.
  - destruct (issue_returns_readable joinKey magnetoCorp "MagnetoCorp" (JNum 1001)
                "Coal" "2024-01-01" (JStr "abc") emptyLedger l' buf E)
      as (_ & _ & Ho & _ & _ & _ & _ & _ & Hr & _).
    split; [exact Hr|exact Ho].
  - vm_compute in E. discriminate.
Defined.
